(** * celestial-sphere: rotation primitives, curve generators, frame
      transforms and solar formulas

    A shallow embedding of [celesph.py] and [sunpath.py].

    Numbers.  Python's [float] is read as a real number ([R]): every
    statement below is about the exact arithmetic the formulas denote, not
    about rounding.  [math.sin], [math.cos], [math.asin], [numpy.arccos],
    [numpy.tan], [numpy.sqrt] are the real functions of the same name;
    [numpy.arctan2] and [numpy.clip] are written out below.

    Arrays.  A one-dimensional [numpy] array is a [list R]; arithmetic
    between arrays is element-wise, arithmetic between an array and a
    [float] broadcasts the float.  The three rotation functions are written
    once, over any carrier that supports the arithmetic they use, because
    the source calls them both on a single point [[x, y, z]] of floats and
    on a batch [[xs, ys, zs]] of arrays.

    Outcomes.  A Python call either returns a value or raises; a function
    that reaches the end of its body returns [None]. *)

From Stdlib Require Import Reals Lra Lia ZArith String Bool List.
Import ListNotations.

Open Scope R_scope.

(** ** Python outcomes *)

(** [AssertionError] is what a failed [assert] raises.  The other three are
    the errors the design names; no statement of the source raises them. *)
Inductive exn : Type :=
  | AssertionError
  | InvalidViewMode
  | InvalidDayMode
  | InvalidGridSize.

Inductive outcome (A : Type) : Type :=
  | Returns (a : A)
  | Raises (e : exn).

Arguments Returns {A} a.
Arguments Raises {A} e.

(** ** The arithmetic the rotations need

    [x*c], [x+y], [x-y] with [c] a float and [x], [y] either floats or
    arrays of one shape. *)

Class Arith (A : Type) : Type := {
  mulf : A -> R -> A;
  add : A -> A -> A;
  sub : A -> A -> A
}.

#[export] Instance Arith_float : Arith R := {
  mulf := Rmult;
  add := Rplus;
  sub := Rminus
}.

Fixpoint map2 {A B C : Type} (f : A -> B -> C) (l : list A) (m : list B)
  : list C :=
  match l, m with
  | a :: l', b :: m' => f a b :: map2 f l' m'
  | _, _ => []
  end.

Definition ndarray : Type := list R.

(** Element-wise arithmetic on arrays of one shape.  (On arrays of different
    lengths [numpy] refuses to broadcast; the arrays of one batch below all
    come from one [linspace] and have its length.) *)
#[export] Instance Arith_ndarray : Arith ndarray := {
  mulf := fun a c => map (fun x => x * c) a;
  add := map2 Rplus;
  sub := map2 Rminus
}.

(** A Python list of three components. *)
Record vec3 (A : Type) : Type := Vec3 { vx : A; vy : A; vz : A }.

Arguments Vec3 {A} vx vy vz.
Arguments vx {A} v.
Arguments vy {A} v.
Arguments vz {A} v.

Definition vector : Type := vec3 R.
Definition batch : Type := vec3 ndarray.

(** ** Rotation primitives ([celesph.py] 17-30, [sunpath.py] 8-21) *)

Section Rotations.
Context {A : Type} `{Arith A}.

Definition rotate_x (p : R) (x : vec3 A) : vec3 A :=
  let c := cos p in
  let s := sin p in
  let '(Vec3 x y z) := x in
  Vec3 x (sub (mulf y c) (mulf z s)) (add (mulf y s) (mulf z c)).

Definition rotate_y (p : R) (x : vec3 A) : vec3 A :=
  let c := cos p in
  let s := sin p in
  let '(Vec3 x y z) := x in
  Vec3 (add (mulf z s) (mulf x c)) y (sub (mulf z c) (mulf x s)).

Definition rotate_z (p : R) (x : vec3 A) : vec3 A :=
  let c := cos p in
  let s := sin p in
  let '(Vec3 x y z) := x in
  Vec3 (sub (mulf x c) (mulf y s)) (add (mulf x s) (mulf y c)) z.
End Rotations.

(** The Euclidean norm of a point. *)
Definition norm (v : vector) : R :=
  sqrt (vx v * vx v + vy v * vy v + vz v * vz v).

(** ** [numpy] *)

Module np.

(** [y[-1] = v] on a non-empty array. *)
Definition set_last (y : ndarray) (v : R) : ndarray :=
  match y with
  | [] => []
  | _ => removelast y ++ [v]
  end.

(** [numpy.linspace(start, stop, num)] with the default [endpoint=True]:
    [arange(0, num) * step + start] with [step = (stop - start) / (num - 1)],
    and the last sample overwritten by [stop] when [num > 1]. *)
Definition linspace (start stop : R) (num : nat) : ndarray :=
  let div := (num - 1)%nat in
  let delta := stop - start in
  let y := map INR (seq 0 num) in
  let y :=
    if (0 <? div)%nat
    then map (fun k => k * (delta / INR div) + start) y
    else map (fun k => k * delta + start) y in
  if (1 <? num)%nat then set_last y stop else y.

Definition sin (a : ndarray) : ndarray := map Rtrigo_def.sin a.
Definition cos (a : ndarray) : ndarray := map Rtrigo_def.cos a.
Definition ones_like (a : ndarray) : ndarray := map (fun _ => 1) a.

(** Broadcasts: [c * a] and [a + c] with [c] a float and [a] an array. *)
Definition rmul (c : R) (a : ndarray) : ndarray := map (Rmult c) a.
Definition addf (a : ndarray) (c : R) : ndarray := map (fun x => x + c) a.

(** [numpy.clip(x, lo, hi)] is [minimum(maximum(x, lo), hi)]. *)
Definition clip (x lo hi : R) : R := Rmin (Rmax x lo) hi.

(** [numpy.arctan2(y, x)]: the angle of the point [(x, y)],
    in [(-pi, pi]]. *)
Definition arctan2 (y x : R) : R :=
  if Rlt_dec 0 x then atan (y / x)
  else if Rlt_dec x 0 then
    if Rle_dec 0 y then atan (y / x) + PI else atan (y / x) - PI
  else if Rlt_dec 0 y then PI / 2
  else if Rlt_dec y 0 then - (PI / 2)
  else 0.

End np.

(** Python slices [a[1:-1]] and [a[:-1]]. *)
Definition slice_1_m1 {A : Type} (a : list A) : list A := removelast (tl a).
Definition slice_m1 {A : Type} (a : list A) : list A := removelast a.

(** ** Spherical curve generators ([celesph.py] 32-53, [sunpath.py] 23-44)

    The sample count [n] is a natural number here; the only value any
    caller passes is the default, [100]. *)

Definition default_n : nat := 100.

Definition make_meridian (p : R) (n : nat) : batch :=
  let q := np.linspace (- PI) PI (n + 1) in
  Vec3 (mulf (np.sin q) (cos p))
       (mulf (np.sin q) (sin p))
       (np.cos q).

Definition make_parallel (q : R) (n : nat) : batch :=
  let p := np.linspace (- PI) PI (n + 1) in
  Vec3 (np.rmul (sin q) (np.cos p))
       (np.rmul (sin q) (np.sin p))
       (np.rmul (cos q) (np.ones_like p)).

(** [make_globe(i, j, n=100)]: the assertion, then one parallel per interior
    colatitude and one meridian per longitude, each at the default
    resolution ([n] is not passed on). *)
Definition make_globe (i j : Z) (n : Z) : outcome (list batch) :=
  if ((0 <=? i)%Z && (0 <=? j)%Z)%bool then
    let result := [] in
    let result :=
      fold_left (fun result q => result ++ [make_parallel q default_n])
        (slice_1_m1 (np.linspace 0 PI (Z.to_nat (i * 2 + 1)))) result in
    let result :=
      fold_left (fun result p => result ++ [make_meridian p default_n])
        (slice_m1 (np.linspace 0 PI (Z.to_nat (j * 2 + 1)))) result in
    Returns result
  else Raises AssertionError.

(** ** Reference-frame transforms ([celesph.py] 62-96)

    The closures of [demo] read the parameter store; here it is their first
    argument.  Only the entries the transforms read are kept. *)

Record store : Type := Store {
  obliquity : R;
  latitude : R;
  time_of_year : R;
  time_of_day : R;
  view_type : string;
  day_type : string
}.

Section Transforms.
Context {A : Type} `{Arith A}.

Definition transform_observer_to_inertial (st : store) (x : vec3 A)
  : vec3 A :=
  let colatitude := PI / 2 - latitude st in
  let x := rotate_y colatitude x in
  let x := rotate_z (time_of_day st) x in
  let x :=
    if (day_type st =? "solar")%string
    then rotate_z (time_of_year st) x else x in
  x.

Definition transform_inertial_to_ecliptic (st : store) (x : vec3 A)
  : vec3 A :=
  let x := rotate_y (obliquity st) x in
  x.

(** The body ends after the third [if]: a view type that is none of the
    three leaves the function without a [return], and the call yields
    [None]. *)
Definition transform_ecliptic_to_view (st : store) (x : vec3 A)
  : outcome (option (vec3 A)) :=
  if (view_type st =? "ecliptic")%string then Returns (Some x) else
  let colatitude := PI / 2 - latitude st in
  let x := rotate_y (- obliquity st) x in
  if (view_type st =? "equator")%string then Returns (Some x) else
  let x := rotate_z (- time_of_day st) x in
  let x :=
    if (day_type st =? "solar")%string
    then rotate_z (- time_of_year st) x else x in
  let x := rotate_y (- colatitude) x in
  if (view_type st =? "horizon")%string then Returns (Some x) else
  Returns None.
End Transforms.

(** ** Solar formulas ([sunpath.py] 46-59, 126-150) *)

Definition get_sun_declination (o t : R) : R :=
  asin (cos t * sin o).

(** The first definition of [make_sun_path] in the file (lines 49-51), which
    the second one replaces at import time. *)
Definition make_sun_path_rotated (o t l : R) : batch :=
  let d := get_sun_declination o t in
  rotate_y (PI / 2 - l) (make_parallel (PI / 2 - d) default_n).

(** The second definition (lines 53-59), the one callers get. *)
Definition make_sun_path (o t l : R) : batch :=
  let d := get_sun_declination o t in
  let p := np.linspace (- PI) PI 101 in
  Vec3
    (np.addf (np.rmul (sin l * cos d) (np.cos p)) (cos l * sin d))
    (np.rmul (cos d) (np.sin p))
    (np.addf (np.rmul (- cos l * cos d) (np.cos p)) (sin l * sin d)).

(** One element of the loop body of [plot_insolation_variation]
    (lines 132-133), at latitude [l] and declination [d]. *)
Definition sunlit_fraction (l d : R) : R :=
  let temp := np.clip (tan l * tan d) (-1) 1 in
  let temp := 1 - acos temp / PI in
  temp.

(** One element of the loop body of [plot_sunrise_position_variation]
    (lines 146-149). *)
Definition sunrise_azimuth (l d : R) : R :=
  let temp := np.clip (tan l * tan d) (-1) 1 in
  let temp :=
    np.arctan2 (sqrt (1 - temp ^ 2)) (sin l * temp + cos l * tan d) in
  temp.

(** ** Vocabulary of the statements *)

(** Two angles on the same side of zero, and on opposite sides. *)
Definition same_sign (l d : R) : Prop := (0 < l /\ 0 < d) \/ (l < 0 /\ d < 0).
Definition opposite_sign (l d : R) : Prop :=
  (0 < l /\ d < 0) \/ (l < 0 /\ 0 < d).

(** The evenly spaced angles [k * pi / (2 i)] of the globe's grid. *)
Definition grid_angle (i : Z) (k : nat) : R := INR k * PI / IZR (2 * i).

(** A batch whose three component arrays hold [m] samples each. *)
Definition samples (c : batch) (m : nat) : Prop :=
  length (vx c) = m /\ length (vy c) = m /\ length (vz c) = m.

(** ** The scene and the controls of [demo] ([celesph.py] 55-70, 132-238)

    Of [demo] the drawing itself is left out; what is kept is the parameter
    store, the two mode iterators, the handlers that change them, and the
    data each curve and marker is computed from. *)

(** [itertools.cycle] over a literal list of at least one item: the item the
    coming [next] returns, and the items after it. *)
Definition cycle : Type := (string * list string)%type.

Definition cycle_next (c : cycle) : string * cycle :=
  let '(x, rest) := c in
  (x, match rest with
      | [] => (x, [])
      | y :: rest' => (y, rest' ++ [x])
      end).

Record demo_state : Type := Demo {
  params : store;
  view_type_iter : cycle;
  day_type_iter : cycle
}.

(** The store as [demo] creates it (lines 59-70). *)
Definition demo_init : demo_state :=
  let view_type_iter := ("ecliptic", ["equator"; "horizon"])%string in
  let day_type_iter := ("sidereal", ["solar"])%string in
  let '(v, view_type_iter) := cycle_next view_type_iter in
  let '(d, day_type_iter) := cycle_next day_type_iter in
  Demo (Store (PI / 180 * 23.4392811) (PI / 180 * 40) 0 0 v d)
       view_type_iter day_type_iter.

(** [store.update(kwargs)] of [refresh], one keyword at a time. *)
Definition update_obliquity (value : R) (st : store) : store :=
  Store value (latitude st) (time_of_year st) (time_of_day st)
        (view_type st) (day_type st).
Definition update_latitude (value : R) (st : store) : store :=
  Store (obliquity st) value (time_of_year st) (time_of_day st)
        (view_type st) (day_type st).
Definition update_time_of_year (value : R) (st : store) : store :=
  Store (obliquity st) (latitude st) value (time_of_day st)
        (view_type st) (day_type st).
Definition update_time_of_day (value : R) (st : store) : store :=
  Store (obliquity st) (latitude st) (time_of_year st) value
        (view_type st) (day_type st).
Definition update_view_type (value : string) (st : store) : store :=
  Store (obliquity st) (latitude st) (time_of_year st) (time_of_day st)
        value (day_type st).
Definition update_day_type (value : string) (st : store) : store :=
  Store (obliquity st) (latitude st) (time_of_year st) (time_of_day st)
        (view_type st) value.

(** [on_key_press] (lines 231-237). *)
Definition on_key_press (key : string) (s : demo_state) : demo_state :=
  if (key =? "1")%string then
    let '(v, it) := cycle_next (view_type_iter s) in
    Demo (update_view_type v (params s)) it (day_type_iter s)
  else if (key =? "2")%string then
    let '(d, it) := cycle_next (day_type_iter s) in
    Demo (update_day_type d (params s)) (view_type_iter s) it
  else s.

(** What the user can do: press a key, or move one of the four sliders
    (lines 203-237). *)
Inductive event : Type :=
  | KeyPress (key : string)
  | ObliquityChanged (value : R)
  | LatitudeChanged (value : R)
  | TimeOfYearChanged (value : R)
  | TimeOfDayChanged (value : R).

Definition handle (s : demo_state) (e : event) : demo_state :=
  match e with
  | KeyPress key => on_key_press key s
  | ObliquityChanged value =>
      Demo (update_obliquity value (params s))
           (view_type_iter s) (day_type_iter s)
  | LatitudeChanged value =>
      Demo (update_latitude value (params s))
           (view_type_iter s) (day_type_iter s)
  | TimeOfYearChanged value =>
      Demo (update_time_of_year value (params s))
           (view_type_iter s) (day_type_iter s)
  | TimeOfDayChanged value =>
      Demo (update_time_of_day value (params s))
           (view_type_iter s) (day_type_iter s)
  end.

Definition run (events : list event) (s : demo_state) : demo_state :=
  fold_left handle events s.

(** The store's mode and its iterator move together: the iterator's coming
    item is the one after the current mode. *)
Definition view_in_step (s : demo_state) : Prop :=
  (view_type (params s) = "ecliptic"
   /\ view_type_iter s = ("equator", ["horizon"; "ecliptic"]))%string \/
  (view_type (params s) = "equator"
   /\ view_type_iter s = ("horizon", ["ecliptic"; "equator"]))%string \/
  (view_type (params s) = "horizon"
   /\ view_type_iter s = ("ecliptic", ["equator"; "horizon"]))%string.

Definition day_in_step (s : demo_state) : Prop :=
  (day_type (params s) = "sidereal"
   /\ day_type_iter s = ("solar", ["sidereal"]))%string \/
  (day_type (params s) = "solar"
   /\ day_type_iter s = ("sidereal", ["solar"]))%string.

(** The data [refresh] computes for the sun path, the Sun, the horizon, the
    zenith and the zenith's daily path (lines 150-187), before [plot] takes
    them to the view frame. *)
Definition sun_path_colatitude (st : store) : R :=
  acos (cos (time_of_year st) * sin (obliquity st)).

Definition scene_sun_path (st : store) : batch :=
  transform_inertial_to_ecliptic st
    (make_parallel (sun_path_colatitude st) default_n).

Definition scene_sun (st : store) : vector :=
  rotate_z (time_of_year st) (Vec3 1 0 0).

Definition scene_horizon (st : store) : batch :=
  transform_inertial_to_ecliptic st
    (transform_observer_to_inertial st (make_parallel (PI / 2) default_n)).

Definition scene_zenith (st : store) : vector :=
  transform_inertial_to_ecliptic st
    (transform_observer_to_inertial st (Vec3 0 0 1)).

Definition scene_zenith_path (st : store) : batch :=
  transform_inertial_to_ecliptic st
    (make_parallel (PI / 2 - latitude st) default_n).

(** ** The two annual plots ([sunpath.py] 6, 126-150) *)

Definition earth_obliquity : R := PI / 180 * 23.4392811.

(** [numpy.vectorize(get_sun_declination)(earth_obliquity, t)] over the 361
    times of year. *)
Definition year_declinations : ndarray :=
  map (get_sun_declination earth_obliquity) (np.linspace (- PI) PI 361).

(** The latitudes both loops run over. *)
Definition plot_latitudes : list R := slice_m1 (np.linspace 0 (PI / 2) 7).

Definition insolation_curves : list ndarray :=
  map (fun l => map (sunlit_fraction l) year_declinations) plot_latitudes.

Definition sunrise_curves : list ndarray :=
  map (fun l => map (sunrise_azimuth l) year_declinations) plot_latitudes.

(** ** Points of a batch *)

Fixpoint zip3 (xs ys zs : list R) : list vector :=
  match xs, ys, zs with
  | x :: xs', y :: ys', z :: zs' => Vec3 x y z :: zip3 xs' ys' zs'
  | _, _, _ => []
  end.

(** The sample points of a batch, in order, and the batch of a list of
    points. *)
Definition points (b : batch) : list vector := zip3 (vx b) (vy b) (vz b).
Definition of_points (l : list vector) : batch :=
  Vec3 (map vx l) (map vy l) (map vz l).

(** The point of the unit sphere at colatitude [q] and longitude [p]. *)
Definition parallel_point (q p : R) : vector :=
  Vec3 (sin q * cos p) (sin q * sin p) (cos q).

(** A point of the unit sphere. *)
Definition on_sphere (v : vector) : Prop :=
  vx v * vx v + vy v * vy v + vz v * vz v = 1.

(** * Properties *)

(** ** Rotations *)

Lemma sin2_cos2' (p : R) : sin p * sin p + cos p * cos p = 1.
Proof. generalize (sin2_cos2 p); unfold Rsqr; lra. Qed.

Ltac trig_norm p :=
  let s := fresh "s" in
  let c := fresh "c" in
  let E := fresh "E" in
  pose proof (sin2_cos2' p) as E;
  set (s := sin p) in *; set (c := cos p) in *.

Lemma norm_rotate_x (p : R) (v : vector) : norm (rotate_x p v) = norm v.
Proof.
  destruct v as [x y z]; unfold norm, rotate_x; cbn.
  f_equal. trig_norm p. nra.
Qed.

Lemma norm_rotate_y (p : R) (v : vector) : norm (rotate_y p v) = norm v.
Proof.
  destruct v as [x y z]; unfold norm, rotate_y; cbn.
  f_equal. trig_norm p. nra.
Qed.

Lemma norm_rotate_z (p : R) (v : vector) : norm (rotate_z p v) = norm v.
Proof.
  destruct v as [x y z]; unfold norm, rotate_z; cbn.
  f_equal. trig_norm p. nra.
Qed.

(** C8. For each of the three axes, every angle [p] and every vector [v], the
    rotated vector has the Euclidean norm of [v]. *)
Theorem rotate_preserves_norm (p : R) (v : vector) :
  norm (rotate_x p v) = norm v /\
  norm (rotate_y p v) = norm v /\
  norm (rotate_z p v) = norm v.
Proof.
  split; [apply norm_rotate_x | split; [apply norm_rotate_y | apply norm_rotate_z]].
Qed.

(** Rotating back by the opposite angle undoes a rotation. *)

Lemma rotate_y_inv (p : R) (v : vector) : rotate_y (- p) (rotate_y p v) = v.
Proof.
  destruct v as [x y z]; unfold rotate_y; cbn.
  rewrite sin_neg, cos_neg. trig_norm p.
  f_equal.
  - replace x with (x * (s * s + c * c)) at 3 by (rewrite E; ring). ring.
  - replace z with (z * (s * s + c * c)) at 3 by (rewrite E; ring). ring.
Qed.

Lemma rotate_z_inv (p : R) (v : vector) : rotate_z (- p) (rotate_z p v) = v.
Proof.
  destruct v as [x y z]; unfold rotate_z; cbn.
  rewrite sin_neg, cos_neg. trig_norm p.
  f_equal.
  - replace x with (x * (s * s + c * c)) at 3 by (rewrite E; ring). ring.
  - replace y with (y * (s * s + c * c)) at 3 by (rewrite E; ring). ring.
Qed.

(** Two rotations about the z axis commute: the view transform undoes
    time-of-day before time-of-year, the order in which they were applied. *)
Lemma rotate_z_comm (a b : R) (v : vector) :
  rotate_z a (rotate_z b v) = rotate_z b (rotate_z a v).
Proof.
  destruct v as [x y z]; unfold rotate_z; cbn. f_equal; ring.
Qed.

(** ** Frame transforms *)

(** C2. Whatever the obliquity, latitude, times and day type: with the view
    type set to horizon, observer->inertial, then inertial->ecliptic, then
    ecliptic->view returns the vector it started from; with the view type
    set to equator, inertial->ecliptic then ecliptic->view does. *)
Theorem transform_round_trip (o l ty td : R) (day : string) (v : vector) :
  (let st := Store o l ty td "horizon" day in
   transform_ecliptic_to_view st
     (transform_inertial_to_ecliptic st
        (transform_observer_to_inertial st v)) = Returns (Some v)) /\
  (let st := Store o l ty td "equator" day in
   transform_ecliptic_to_view st (transform_inertial_to_ecliptic st v)
   = Returns (Some v)).
Proof.
  split; cbv zeta.
  - unfold transform_ecliptic_to_view, transform_inertial_to_ecliptic,
      transform_observer_to_inertial.
    cbn [view_type day_type obliquity latitude time_of_year time_of_day].
    change (("horizon" =? "ecliptic")%string) with false.
    change (("horizon" =? "equator")%string) with false.
    change (("horizon" =? "horizon")%string) with true.
    cbv iota. do 2 f_equal.
    rewrite rotate_y_inv.
    destruct (day =? "solar")%string.
    + rewrite (rotate_z_comm ty td), rotate_z_inv.
      now rewrite rotate_z_inv, rotate_y_inv.
    + now rewrite rotate_z_inv, rotate_y_inv.
  - unfold transform_ecliptic_to_view, transform_inertial_to_ecliptic.
    cbn [view_type obliquity].
    change (("equator" =? "ecliptic")%string) with false.
    change (("equator" =? "equator")%string) with true.
    cbv iota. now rewrite rotate_y_inv.
Qed.

(** C1, as the code has it. A view type that is none of ecliptic, equator and
    horizon makes the ecliptic->view transform return [None]: it raises
    nothing, and it hands back no vector, rotated or not. *)
Theorem transform_ecliptic_to_view_unknown
    {A : Type} `{Arith A} (st : store) (x : vec3 A) :
  view_type st <> "ecliptic"%string ->
  view_type st <> "equator"%string ->
  view_type st <> "horizon"%string ->
  transform_ecliptic_to_view st x = Returns None.
Proof.
  intros H1 H2 H3. unfold transform_ecliptic_to_view.
  apply String.eqb_neq in H1, H2, H3.
  now rewrite H1, H2, H3.
Qed.

Lemma transform_ecliptic_to_view_unknown_witness :
  let st := Store 0 0 0 0 "galactic" "sidereal" in
  view_type st <> "ecliptic"%string /\
  view_type st <> "equator"%string /\
  view_type st <> "horizon"%string /\
  transform_ecliptic_to_view st (Vec3 1 0 0 : vector) = Returns None.
Proof.
  cbv zeta.
  assert (H1 : "galactic"%string <> "ecliptic"%string) by discriminate.
  assert (H2 : "galactic"%string <> "equator"%string) by discriminate.
  assert (H3 : "galactic"%string <> "horizon"%string) by discriminate.
  split; [exact H1 | split; [exact H2 | split; [exact H3 | ]]].
  exact (transform_ecliptic_to_view_unknown
           (Store 0 0 0 0 "galactic" "sidereal") (Vec3 1 0 0 : vector)
           H1 H2 H3).
Defined.

(** C1 as stated fails: with the view type "galactic" the transform does not
    raise [InvalidViewMode]; the call returns [None]. *)
Lemma transform_ecliptic_to_view_no_error :
  let st := Store 0 0 0 0 "galactic" "sidereal" in
  view_type st <> "ecliptic"%string /\
  view_type st <> "equator"%string /\
  view_type st <> "horizon"%string /\
  transform_ecliptic_to_view st (Vec3 1 0 0 : vector) = Returns None /\
  transform_ecliptic_to_view st (Vec3 1 0 0 : vector)
    <> Raises InvalidViewMode.
Proof.
  cbv zeta. repeat split; try discriminate.
Qed.

(** ** Solar declination *)

Lemma asin_le_of_sin (x a : R) :
  -1 <= x <= 1 -> - (PI / 2) <= a <= PI / 2 -> x <= sin a -> asin x <= a.
Proof.
  intros Hx Ha Hle. pose proof (asin_bound x) as Hb.
  apply sin_incr_0; try lra. now rewrite sin_asin.
Qed.

Lemma asin_ge_of_sin (x a : R) :
  -1 <= x <= 1 -> - (PI / 2) <= a <= PI / 2 -> sin a <= x -> a <= asin x.
Proof.
  intros Hx Ha Hle. pose proof (asin_bound x) as Hb.
  apply sin_incr_0; try lra. now rewrite sin_asin.
Qed.

Lemma declination_arg_bound (o t : R) : -1 <= cos t * sin o <= 1.
Proof.
  pose proof (COS_bound t). pose proof (SIN_bound o). nra.
Qed.

Lemma sin_Rabs_cases (o : R) :
  sin o = sin (Rabs o) \/ sin o = - sin (Rabs o).
Proof.
  unfold Rabs. destruct (Rcase_abs o).
  - right. rewrite sin_neg. lra.
  - now left.
Qed.

Lemma declination_within_abs (o t : R) :
  - Rabs o <= get_sun_declination o t <= Rabs o.
Proof.
  unfold get_sun_declination.
  pose proof (asin_bound (cos t * sin o)) as Hb.
  destruct (Rle_lt_dec (PI / 2) (Rabs o)) as [Hbig | Hsmall]; [lra |].
  pose proof (Rabs_pos o) as Hpos.
  pose proof (declination_arg_bound o t) as Harg.
  assert (Hs : 0 <= sin (Rabs o)).
  { apply sin_ge_0; [assumption |]. pose proof PI_RGT_0. lra. }
  pose proof (COS_bound t) as Hc.
  split.
  - apply asin_ge_of_sin; [assumption | lra |].
    rewrite sin_neg. destruct (sin_Rabs_cases o) as [E | E]; rewrite E; nra.
  - apply asin_le_of_sin; [assumption | lra |].
    destruct (sin_Rabs_cases o) as [E | E]; rewrite E; nra.
Qed.

(** C4, as the code has it. For all real [o] and [t] the declination is
    [asin (cos t * sin o)] and lies between [- |o|] and [|o|]; for [o >= 0]
    that is the range from [- o] to [o]. *)
Theorem declination_formula_and_range (o t : R) :
  get_sun_declination o t = asin (cos t * sin o) /\
  - Rabs o <= get_sun_declination o t <= Rabs o /\
  (0 <= o -> - o <= get_sun_declination o t <= o).
Proof.
  split; [reflexivity |].
  pose proof (declination_within_abs o t) as Hb.
  split; [exact Hb |].
  intros Ho. rewrite (Rabs_pos_eq o Ho) in Hb. exact Hb.
Qed.

Lemma declination_formula_and_range_witness :
  0 <= 1 /\ - 1 <= get_sun_declination 1 0 <= 1.
Proof.
  assert (H : 0 <= 1) by lra.
  split; [exact H |].
  exact (proj2 (proj2 (declination_formula_and_range 1 0)) H).
Defined.

(** C4 as stated fails for a negative obliquity: at [o = -1], [t = 0] the
    declination is [-1], and the range from [- o = 1] to [o = -1] holds no
    number. *)
Lemma declination_range_negative_obliquity :
  get_sun_declination (-1) 0 = -1 /\
  ~ (- (-1) <= get_sun_declination (-1) 0 <= -1).
Proof.
  assert (E : get_sun_declination (-1) 0 = -1).
  { unfold get_sun_declination. rewrite cos_0, Rmult_1_l.
    apply asin_sin. pose proof PI2_1. lra. }
  split; [exact E |]. rewrite E. lra.
Qed.

(** C9, as the code has it. For an obliquity between [- pi/2] and [pi/2] the
    declination at time of year [0] is [o] and at [pi] is [- o]; at [pi/2] it
    is [0] for every obliquity. *)
Theorem declination_solstices_equinox (o : R) :
  - (PI / 2) <= o <= PI / 2 ->
  get_sun_declination o 0 = o /\
  get_sun_declination o PI = - o /\
  (forall o' : R, get_sun_declination o' (PI / 2) = 0).
Proof.
  intros Ho. unfold get_sun_declination. repeat split.
  - rewrite cos_0, Rmult_1_l. now apply asin_sin.
  - rewrite cos_PI.
    replace (-1 * sin o) with (- sin o) by ring.
    rewrite asin_opp. f_equal. now apply asin_sin.
  - intros o'. rewrite cos_PI2, Rmult_0_l. apply asin_0.
Qed.

Lemma declination_solstices_equinox_witness :
  - (PI / 2) <= 1 <= PI / 2 /\
  get_sun_declination 1 0 = 1 /\
  get_sun_declination 1 PI = - 1.
Proof.
  assert (H : - (PI / 2) <= 1 <= PI / 2) by (pose proof PI2_1; lra).
  split; [exact H |].
  pose proof (declination_solstices_equinox 1 H) as [H0 [H1 _]].
  split; [exact H0 | exact H1].
Defined.

(** C9 as stated fails beyond a right angle: at obliquity [pi] the
    declination at time of year [0] is [0], not [pi]. *)
Lemma declination_solstice_at_pi :
  get_sun_declination PI 0 = 0 /\ get_sun_declination PI 0 <> PI.
Proof.
  assert (E : get_sun_declination PI 0 = 0).
  { unfold get_sun_declination. rewrite sin_PI, Rmult_0_r. apply asin_0. }
  split; [exact E |]. rewrite E. pose proof PI_RGT_0. lra.
Qed.

(** ** Sun path *)

Lemma map2_map_map {A B C D : Type} (f : B -> C -> D) (g : A -> B)
    (h : A -> C) (l : list A) :
  map2 f (map g l) (map h l) = map (fun a => f (g a) (h a)) l.
Proof.
  induction l as [| a l IH]; cbn; [reflexivity | now rewrite IH].
Qed.

(** The rotated parallel, one sample at a time. *)
Lemma make_sun_path_rotated_samples (o t l : R) :
  let d := get_sun_declination o t in
  let c := cos (PI / 2 - l) in
  let s := sin (PI / 2 - l) in
  let q := PI / 2 - d in
  make_sun_path_rotated o t l =
  Vec3
    (map (fun p => cos q * 1 * s + sin q * cos p * c)
       (np.linspace (- PI) PI 101))
    (map (fun p => sin q * sin p) (np.linspace (- PI) PI 101))
    (map (fun p => cos q * 1 * c - sin q * cos p * s)
       (np.linspace (- PI) PI 101)).
Proof.
  cbv zeta. unfold make_sun_path_rotated, make_parallel, rotate_y.
  change (default_n + 1)%nat with 101%nat.
  set (ps := np.linspace (- PI) PI 101).
  unfold np.rmul, np.cos, np.sin, np.ones_like.
  cbn [add sub mulf Arith_ndarray].
  rewrite !map_map, !map2_map_map.
  f_equal; apply map_ext; intros p; ring.
Qed.

(** C3. With [d] the declination at obliquity [o] and time of year [t], the
    sun path at latitude [l] holds, for each parameter value [p] of its 101
    samples, the point of the closed form; and it is the same batch as the
    parallel of colatitude [pi/2 - d] rotated about the y axis by
    [pi/2 - l]. *)
Theorem make_sun_path_closed_form (o t l : R) :
  let d := get_sun_declination o t in
  let ps := np.linspace (- PI) PI 101 in
  vx (make_sun_path o t l)
    = map (fun p => sin l * cos d * cos p + cos l * sin d) ps /\
  vy (make_sun_path o t l) = map (fun p => cos d * sin p) ps /\
  vz (make_sun_path o t l)
    = map (fun p => - cos l * cos d * cos p + sin l * sin d) ps /\
  make_sun_path o t l = make_sun_path_rotated o t l.
Proof.
  cbv zeta. unfold make_sun_path.
  unfold np.addf, np.rmul, np.cos, np.sin. cbn [vx vy vz].
  rewrite !map_map.
  repeat (split; [reflexivity |]).
  rewrite (make_sun_path_rotated_samples o t l). cbv zeta.
  rewrite !sin_shift, !cos_shift.
  f_equal; apply map_ext; intros p; ring.
Qed.

(** ** Sunlit fraction and sunrise azimuth *)

Lemma clip_above (x : R) : 1 <= x -> np.clip x (-1) 1 = 1.
Proof.
  intros Hx. unfold np.clip.
  rewrite Rmax_left by lra. now rewrite Rmin_right.
Qed.

Lemma clip_below (x : R) : x <= -1 -> np.clip x (-1) 1 = -1.
Proof.
  intros Hx. unfold np.clip.
  rewrite Rmax_right by lra. rewrite Rmin_left; lra.
Qed.

Lemma clip_range (x : R) : -1 <= np.clip x (-1) 1 <= 1.
Proof.
  unfold np.clip, Rmin, Rmax.
  destruct (Rle_dec x (-1)); destruct (Rle_dec _ 1); lra.
Qed.

Lemma acos_m1 : acos (-1) = PI.
Proof. change (-1) with (Ropp 1). rewrite acos_opp, acos_1. ring. Qed.

Lemma tan_product_same_sign (l d : R) :
  - (PI / 2) < l < PI / 2 -> - (PI / 2) < d < PI / 2 ->
  same_sign l d -> 0 < tan l * tan d.
Proof.
  intros Hl Hd [[L D] | [L D]].
  - pose proof (tan_gt_0 l L (proj2 Hl)). pose proof (tan_gt_0 d D (proj2 Hd)).
    nra.
  - pose proof (tan_lt_0 l (proj1 Hl) L). pose proof (tan_lt_0 d (proj1 Hd) D).
    nra.
Qed.

Lemma tan_product_opposite_sign (l d : R) :
  - (PI / 2) < l < PI / 2 -> - (PI / 2) < d < PI / 2 ->
  opposite_sign l d -> tan l * tan d < 0.
Proof.
  intros Hl Hd [[L D] | [L D]].
  - pose proof (tan_gt_0 l L (proj2 Hl)). pose proof (tan_lt_0 d (proj1 Hd) D).
    nra.
  - pose proof (tan_lt_0 l (proj1 Hl) L). pose proof (tan_gt_0 d D (proj2 Hd)).
    nra.
Qed.

(** C6. For a latitude [l] and a declination [d] strictly inside a right
    angle, the sunlit fraction is [1 - acos (clamp (tan l * tan d)) / pi]; it
    is exactly [1] when [l] and [d] have the same sign and
    [|tan l * tan d| >= 1], and exactly [0] when they have opposite signs and
    [|tan l * tan d| >= 1]. *)
Theorem sunlit_fraction_saturates (l d : R) :
  - (PI / 2) < l < PI / 2 -> - (PI / 2) < d < PI / 2 ->
  sunlit_fraction l d
    = 1 - acos (Rmin (Rmax (tan l * tan d) (-1)) 1) / PI /\
  (same_sign l d -> 1 <= Rabs (tan l * tan d) -> sunlit_fraction l d = 1) /\
  (opposite_sign l d -> 1 <= Rabs (tan l * tan d) ->
   sunlit_fraction l d = 0).
Proof.
  intros Hl Hd. split; [reflexivity |].
  unfold sunlit_fraction. split; intros Hs Hm.
  - pose proof (tan_product_same_sign l d Hl Hd Hs) as Hp.
    rewrite Rabs_pos_eq in Hm by lra.
    rewrite clip_above by assumption.
    rewrite acos_1. unfold Rdiv. ring.
  - pose proof (tan_product_opposite_sign l d Hl Hd Hs) as Hp.
    rewrite Rabs_left in Hm by assumption.
    rewrite clip_below by lra.
    rewrite acos_m1. field. apply PI_neq0.
Qed.

Lemma quarter_inside_right_angle : - (PI / 2) < PI / 4 < PI / 2.
Proof. pose proof PI_RGT_0. lra. Qed.

Lemma minus_quarter_inside_right_angle : - (PI / 2) < - (PI / 4) < PI / 2.
Proof. pose proof PI_RGT_0. lra. Qed.

Lemma sunlit_fraction_saturates_witness :
  sunlit_fraction (PI / 4) (PI / 4) = 1 /\
  sunlit_fraction (PI / 4) (- (PI / 4)) = 0.
Proof.
  split.
  - apply (proj1 (proj2 (sunlit_fraction_saturates (PI / 4) (PI / 4)
               quarter_inside_right_angle quarter_inside_right_angle))).
    + left. pose proof PI_RGT_0. lra.
    + rewrite tan_PI4, Rmult_1_l, Rabs_R1. lra.
  - apply (proj2 (proj2 (sunlit_fraction_saturates (PI / 4) (- (PI / 4))
               quarter_inside_right_angle minus_quarter_inside_right_angle))).
    + left. pose proof PI_RGT_0. lra.
    + rewrite tan_neg, tan_PI4, Rmult_1_l, Rabs_Ropp, Rabs_R1. lra.
Defined.

(** The angle of a point on or above the x axis lies between [0] and [pi]. *)
Lemma arctan2_upper_half (y x : R) : 0 <= y -> 0 <= np.arctan2 y x <= PI.
Proof.
  intros Hy. unfold np.arctan2. pose proof PI_RGT_0 as Hpi.
  pose proof (atan_bound (y / x)) as Hb.
  destruct (Rlt_dec 0 x) as [Hx | Hx].
  - assert (Hq : 0 <= y / x).
    { apply Rmult_le_pos; [assumption |]. left. now apply Rinv_0_lt_compat. }
    destruct Hq as [Hq | Hq].
    + pose proof (atan_increasing 0 (y / x) Hq) as Hi.
      rewrite atan_0 in Hi. lra.
    + rewrite <- Hq, atan_0. lra.
  - destruct (Rlt_dec x 0) as [Hx' | Hx'].
    + destruct (Rle_dec 0 y) as [_ | Hn]; [| contradiction].
      assert (Hq : y / x <= 0).
      { unfold Rdiv. pose proof (Rinv_lt_0_compat x Hx'). nra. }
      destruct Hq as [Hq | Hq].
      * pose proof (atan_increasing (y / x) 0 Hq) as Hi.
        rewrite atan_0 in Hi. lra.
      * rewrite Hq, atan_0. lra.
    + destruct (Rlt_dec 0 y); [lra |].
      destruct (Rlt_dec y 0); lra.
Qed.

(** C7. For a latitude [l] and a declination [d] strictly inside a right
    angle, the sunrise azimuth, [atan2 (sqrt (1 - f^2), sin l * f + cos l *
    tan d)] with [f] the clamped product of the tangents, lies between [0]
    and [pi], ends included. *)
Theorem sunrise_azimuth_range (l d : R) :
  - (PI / 2) < l < PI / 2 -> - (PI / 2) < d < PI / 2 ->
  let f := Rmin (Rmax (tan l * tan d) (-1)) 1 in
  sunrise_azimuth l d
    = np.arctan2 (sqrt (1 - f ^ 2)) (sin l * f + cos l * tan d) /\
  0 <= sunrise_azimuth l d <= PI.
Proof.
  intros _ _. cbv zeta. split; [reflexivity |].
  unfold sunrise_azimuth. apply arctan2_upper_half. apply sqrt_pos.
Qed.

Lemma zero_inside_right_angle : - (PI / 2) < 0 < PI / 2.
Proof. pose proof PI_RGT_0. lra. Qed.

Lemma sunrise_azimuth_range_witness : 0 <= sunrise_azimuth 0 0 <= PI.
Proof.
  exact (proj2 (sunrise_azimuth_range 0 0
                  zero_inside_right_angle zero_inside_right_angle)).
Defined.

(** ** [linspace] and slices *)

Lemma set_last_snoc (l : ndarray) (x v : R) :
  np.set_last (l ++ [x]) v = l ++ [v].
Proof.
  unfold np.set_last. destruct (l ++ [x]) eqn:E.
  - now destruct l.
  - now rewrite <- E, removelast_last.
Qed.

Lemma length_linspace (a b : R) (num : nat) :
  length (np.linspace a b num) = num.
Proof.
  unfold np.linspace.
  set (y := if (0 <? num - 1)%nat then _ else _).
  assert (Hy : length y = num).
  { subst y. destruct (0 <? num - 1)%nat;
      now rewrite !length_map, length_seq. }
  destruct (1 <? num)%nat; [| exact Hy].
  destruct num as [| m]; [now destruct y |].
  destruct y as [| r y] using rev_ind; [discriminate |].
  rewrite set_last_snoc. rewrite !length_app in *. exact Hy.
Qed.

(** With at least two samples: the first [m] are [a + k * (b - a) / m] for
    [k = 0 .. m-1], and the last is [b]. *)
Lemma linspace_snoc (a b : R) (m : nat) :
  (1 <= m)%nat ->
  np.linspace a b (S m)
  = map (fun k => INR k * ((b - a) / INR m) + a) (seq 0 m) ++ [b].
Proof.
  intros Hm. unfold np.linspace.
  replace (S m - 1)%nat with m by lia.
  destruct (Nat.ltb_spec 0 m) as [_ | ?]; [| lia].
  destruct (Nat.ltb_spec 1 (S m)) as [_ | ?]; [| lia].
  rewrite seq_S, !map_app, map_map. cbn [map].
  apply set_last_snoc.
Qed.

Lemma slice_m1_linspace (a b : R) (m : nat) :
  slice_m1 (np.linspace a b (S m))
  = map (fun k => INR k * ((b - a) / INR m) + a) (seq 0 m).
Proof.
  destruct m as [| m]; [reflexivity |].
  rewrite linspace_snoc by lia. apply removelast_last.
Qed.

Lemma slice_1_m1_linspace (a b : R) (m : nat) :
  (1 <= m)%nat ->
  slice_1_m1 (np.linspace a b (S m))
  = map (fun k => INR k * ((b - a) / INR m) + a) (seq 1 (m - 1)).
Proof.
  intros Hm. rewrite linspace_snoc by assumption.
  destruct m as [| m]; [lia |].
  replace (S m - 1)%nat with m by lia.
  unfold slice_1_m1. cbn [seq map app tl]. apply removelast_last.
Qed.

(** ** Globe *)

Lemma fold_left_snoc_map {A B : Type} (f : A -> B) (l : list A)
    (acc : list B) :
  fold_left (fun result a => result ++ [f a]) l acc = acc ++ map f l.
Proof.
  revert acc. induction l as [| a l IH]; intros acc; cbn.
  - now rewrite app_nil_r.
  - now rewrite IH, <- app_assoc.
Qed.

Lemma make_globe_returns (i j n : Z) :
  (0 <= i)%Z -> (0 <= j)%Z ->
  make_globe i j n
  = Returns
      (map (fun q => make_parallel q default_n)
         (slice_1_m1 (np.linspace 0 PI (Z.to_nat (i * 2 + 1))))
       ++ map (fun p => make_meridian p default_n)
            (slice_m1 (np.linspace 0 PI (Z.to_nat (j * 2 + 1))))).
Proof.
  intros Hi Hj. unfold make_globe.
  destruct (Z.leb_spec 0 i) as [_ | ?]; [| lia].
  destruct (Z.leb_spec 0 j) as [_ | ?]; [| lia].
  cbn [andb]. now rewrite !fold_left_snoc_map.
Qed.

Lemma make_globe_negative (i j n : Z) :
  (i < 0)%Z \/ (j < 0)%Z -> make_globe i j n = Raises AssertionError.
Proof.
  intros Hneg. unfold make_globe.
  destruct (Z.leb_spec 0 i) as [Hi | _]; [| reflexivity].
  destruct (Z.leb_spec 0 j) as [Hj | _]; [lia | reflexivity].
Qed.

Lemma to_nat_odd (i : Z) :
  (0 <= i)%Z -> Z.to_nat (i * 2 + 1) = S (Z.to_nat (2 * i)).
Proof. intros Hi. lia. Qed.

Lemma INR_to_nat (z : Z) : (0 <= z)%Z -> INR (Z.to_nat z) = IZR z.
Proof. intros Hz. now rewrite INR_IZR_INZ, Z2Nat.id. Qed.

Lemma globe_colatitudes (i : Z) :
  (1 <= i)%Z ->
  slice_1_m1 (np.linspace 0 PI (Z.to_nat (i * 2 + 1)))
  = map (grid_angle i) (seq 1 (Z.to_nat (2 * i - 1))).
Proof.
  intros Hi. rewrite to_nat_odd by lia.
  rewrite slice_1_m1_linspace by lia.
  replace (Z.to_nat (2 * i) - 1)%nat with (Z.to_nat (2 * i - 1)) by lia.
  apply map_ext. intros k. unfold grid_angle.
  rewrite INR_to_nat by lia. unfold Rdiv. ring.
Qed.

Lemma globe_longitudes (j : Z) :
  (0 <= j)%Z ->
  slice_m1 (np.linspace 0 PI (Z.to_nat (j * 2 + 1)))
  = map (grid_angle j) (seq 0 (Z.to_nat (2 * j))).
Proof.
  intros Hj. rewrite to_nat_odd by lia.
  rewrite slice_m1_linspace.
  apply map_ext. intros k. unfold grid_angle.
  rewrite INR_to_nat by lia. unfold Rdiv. ring.
Qed.

Lemma grid_angle_range (i : Z) (k : nat) :
  (Z.of_nat k < 2 * i)%Z -> 0 <= grid_angle i k < PI.
Proof.
  intros Hk. unfold grid_angle. pose proof PI_RGT_0 as Hpi.
  assert (Hc : 0 < IZR (2 * i)) by (apply IZR_lt; lia).
  assert (Ha : 0 <= INR k) by apply pos_INR.
  assert (Hlt : INR k < IZR (2 * i))
    by (rewrite INR_IZR_INZ; now apply IZR_lt).
  split.
  - apply Rmult_le_pos; [nra |]. left. now apply Rinv_0_lt_compat.
  - apply Rmult_lt_reg_r with (IZR (2 * i)); [assumption |].
    unfold Rdiv. rewrite Rmult_assoc, Rinv_l by lra. nra.
Qed.

Lemma grid_angle_pos (i : Z) (k : nat) :
  (0 < i)%Z -> (1 <= k)%nat -> 0 < grid_angle i k.
Proof.
  intros Hi Hk. unfold grid_angle. pose proof PI_RGT_0 as Hpi.
  assert (Hc : 0 < IZR (2 * i)) by (apply IZR_lt; lia).
  assert (Ha : 0 < INR k) by (apply lt_0_INR; lia).
  apply Rdiv_lt_0_compat; nra.
Qed.

Lemma grid_angle_inj (i : Z) (k k' : nat) :
  (0 < i)%Z -> grid_angle i k = grid_angle i k' -> k = k'.
Proof.
  intros Hi E. unfold grid_angle in E. pose proof PI_RGT_0 as Hpi.
  assert (Hc : 0 < IZR (2 * i)) by (apply IZR_lt; lia).
  apply INR_eq.
  apply Rmult_eq_reg_r with (PI / IZR (2 * i)).
  - unfold Rdiv in *. lra.
  - apply Rgt_not_eq. apply Rdiv_lt_0_compat; lra.
Qed.

Lemma colatitudes_inside (i : Z) :
  (1 <= i)%Z ->
  Forall (fun q => 0 < q < PI)
    (map (grid_angle i) (seq 1 (Z.to_nat (2 * i - 1)))).
Proof.
  intros Hi. apply Forall_map, Forall_forall. intros k Hk.
  apply in_seq in Hk. split.
  - apply grid_angle_pos; lia.
  - apply grid_angle_range. lia.
Qed.

Lemma longitudes_inside (j : Z) :
  (0 <= j)%Z ->
  Forall (fun p => 0 <= p < PI)
    (map (grid_angle j) (seq 0 (Z.to_nat (2 * j)))).
Proof.
  intros Hj. apply Forall_map, Forall_forall. intros k Hk.
  apply in_seq in Hk. apply grid_angle_range. lia.
Qed.

Lemma longitudes_distinct (j : Z) :
  (0 <= j)%Z -> NoDup (map (grid_angle j) (seq 0 (Z.to_nat (2 * j)))).
Proof.
  intros Hj. apply NoDup_map_NoDup_ForallPairs; [| apply seq_NoDup].
  intros k k' Hk _ E. apply in_seq in Hk.
  apply (grid_angle_inj j); [lia | exact E].
Qed.

(** C5, as the code has it. For [i >= 1] and [j >= 0], [make_globe i j n]
    returns [2 i - 1] parallels, at the colatitudes [k pi / (2 i)] for
    [k = 1 .. 2 i - 1], all strictly between [0] and [pi], followed by [2 j]
    meridians, at the longitudes [k pi / (2 j)] for [k = 0 .. 2 j - 1], all
    in [[0, pi)] and pairwise distinct; [make_globe 3 3 n] returns 5
    parallels and 6 meridians, 11 curves; a negative [i] or [j] fails the
    assertion. *)
Theorem make_globe_grid (i j n : Z) :
  (1 <= i)%Z -> (0 <= j)%Z ->
  let qs := map (grid_angle i) (seq 1 (Z.to_nat (2 * i - 1))) in
  let ps := map (grid_angle j) (seq 0 (Z.to_nat (2 * j))) in
  make_globe i j n
  = Returns (map (fun q => make_parallel q default_n) qs
             ++ map (fun p => make_meridian p default_n) ps) /\
  Z.of_nat (length qs) = (2 * i - 1)%Z /\
  Z.of_nat (length ps) = (2 * j)%Z /\
  Forall (fun q => 0 < q < PI) qs /\
  Forall (fun p => 0 <= p < PI) ps /\
  NoDup ps /\
  (exists qs3 ps3,
     make_globe 3 3 n
     = Returns (map (fun q => make_parallel q default_n) qs3
                ++ map (fun p => make_meridian p default_n) ps3) /\
     length qs3 = 5%nat /\ length ps3 = 6%nat /\
     length (map (fun q => make_parallel q default_n) qs3
             ++ map (fun p => make_meridian p default_n) ps3) = 11%nat) /\
  (forall i' j' : Z,
     (i' < 0)%Z \/ (j' < 0)%Z -> make_globe i' j' n = Raises AssertionError).
Proof.
  intros Hi Hj. cbv zeta.
  split.
  { rewrite make_globe_returns by lia.
    now rewrite globe_colatitudes, globe_longitudes by lia. }
  split; [rewrite length_map, length_seq; lia |].
  split; [rewrite length_map, length_seq; lia |].
  split; [now apply colatitudes_inside |].
  split; [now apply longitudes_inside |].
  split; [now apply longitudes_distinct |].
  split; [| intros i' j'; apply make_globe_negative].
  exists (map (grid_angle 3) (seq 1 5)), (map (grid_angle 3) (seq 0 6)).
  split.
  { rewrite make_globe_returns by lia.
    now rewrite globe_colatitudes, globe_longitudes by lia. }
  repeat split.
Qed.

Lemma make_globe_grid_witness :
  (1 <= 3)%Z /\ (0 <= 3)%Z /\
  make_globe 3 3 100
  = Returns (map (fun q => make_parallel q default_n)
               (map (grid_angle 3) (seq 1 5))
             ++ map (fun p => make_meridian p default_n)
                  (map (grid_angle 3) (seq 0 6))).
Proof.
  assert (Hi : (1 <= 3)%Z) by lia.
  assert (Hj : (0 <= 3)%Z) by lia.
  split; [exact Hi |]. split; [exact Hj |].
  exact (proj1 (make_globe_grid 3 3 100 Hi Hj)).
Defined.

(** C5 as stated fails at [i = 0]: [make_globe 0 3 100] returns the 6
    meridians and no parallel, 6 curves, where [2 i - 1] parallels plus
    [2 j] meridians would be 5. *)
Lemma make_globe_no_parallels :
  exists cs,
    make_globe 0 3 100 = Returns cs /\
    Z.of_nat (length cs) = 6%Z /\
    Z.of_nat (length cs) <> (2 * 0 - 1 + 2 * 3)%Z.
Proof.
  eexists. split; [apply make_globe_returns; lia |].
  rewrite length_app, !length_map.
  unfold slice_1_m1, slice_m1.
  assert (E1 : length (removelast (tl (np.linspace 0 PI
                                        (Z.to_nat (0 * 2 + 1))))) = 0%nat)
    by reflexivity.
  assert (E2 : length (removelast (np.linspace 0 PI
                                    (Z.to_nat (3 * 2 + 1)))) = 6%nat)
    by reflexivity.
  rewrite E1, E2. split; [reflexivity | discriminate].
Qed.

(** ** Resolution of the globe's curves *)

Lemma make_parallel_samples (q : R) (n : nat) :
  samples (make_parallel q n) (n + 1).
Proof.
  unfold samples, make_parallel, np.rmul, np.cos, np.sin, np.ones_like.
  cbn [vx vy vz]. now rewrite !length_map, length_linspace.
Qed.

Lemma make_meridian_samples (p : R) (n : nat) :
  samples (make_meridian p n) (n + 1).
Proof.
  unfold samples, make_meridian, np.cos, np.sin.
  cbn [vx vy vz mulf Arith_ndarray].
  now rewrite !length_map, length_linspace.
Qed.

(** C10. For [i >= 1], [j >= 1] and every [n], [make_globe i j n] returns a
    list of curves, each one a parallel or a meridian generated at the
    default resolution and holding exactly 101 samples; the list is the
    same for every other value of [n]. *)
Theorem make_globe_ignores_resolution (i j n : Z) :
  (1 <= i)%Z -> (1 <= j)%Z ->
  exists cs,
    make_globe i j n = Returns cs /\
    cs <> [] /\
    Forall (fun c => samples c 101) cs /\
    Forall (fun c => exists a,
                c = make_parallel a 100 \/ c = make_meridian a 100) cs /\
    (forall n' : Z, make_globe i j n' = Returns cs).
Proof.
  intros Hi Hj. eexists.
  split; [apply make_globe_returns; lia |].
  split.
  { rewrite globe_colatitudes by lia.
    replace (Z.to_nat (2 * i - 1)) with (S (Z.to_nat (2 * i - 2))) by lia.
    discriminate. }
  split.
  { apply Forall_app; split; apply Forall_map, Forall_forall; intros a _.
    - apply (make_parallel_samples a 100).
    - apply (make_meridian_samples a 100). }
  split.
  { apply Forall_app; split; apply Forall_map, Forall_forall; intros a _;
      exists a; [now left | now right]. }
  intros n'. apply make_globe_returns; lia.
Qed.

Lemma make_globe_ignores_resolution_witness :
  (1 <= 3)%Z /\ (1 <= 3)%Z /\
  exists cs,
    make_globe 3 3 7 = Returns cs /\
    Forall (fun c => samples c 101) cs.
Proof.
  assert (H1 : (1 <= 3)%Z) by lia.
  split; [exact H1 |]. split; [exact H1 |].
  destruct (make_globe_ignores_resolution 3 3 7 H1 H1)
    as [cs [E [_ [F _]]]].
  exists cs. split; [exact E | exact F].
Defined.


(** * Further properties *)

(** ** Rotations as a group action *)

Lemma rotate_x_inv (p : R) (v : vector) : rotate_x (- p) (rotate_x p v) = v.
Proof.
  destruct v as [x y z]; unfold rotate_x; cbn.
  rewrite sin_neg, cos_neg. trig_norm p.
  f_equal.
  - replace y with (y * (s * s + c * c)) at 3 by (rewrite E; ring). ring.
  - replace z with (z * (s * s + c * c)) at 3 by (rewrite E; ring). ring.
Qed.

(** X1. Rotating by an angle and then by the opposite angle about the same
    axis gives back the vector, for each of the three axes. *)
Theorem rotate_then_back (p : R) (v : vector) :
  rotate_x (- p) (rotate_x p v) = v /\
  rotate_y (- p) (rotate_y p v) = v /\
  rotate_z (- p) (rotate_z p v) = v.
Proof.
  split; [apply rotate_x_inv | split; [apply rotate_y_inv | apply rotate_z_inv]].
Qed.

Lemma rotate_x_add (p q : R) (v : vector) :
  rotate_x p (rotate_x q v) = rotate_x (p + q) v.
Proof.
  destruct v as [x y z]; unfold rotate_x; cbn.
  rewrite sin_plus, cos_plus. f_equal; ring.
Qed.

Lemma rotate_y_add (p q : R) (v : vector) :
  rotate_y p (rotate_y q v) = rotate_y (p + q) v.
Proof.
  destruct v as [x y z]; unfold rotate_y; cbn.
  rewrite sin_plus, cos_plus. f_equal; ring.
Qed.

Lemma rotate_z_add (p q : R) (v : vector) :
  rotate_z p (rotate_z q v) = rotate_z (p + q) v.
Proof.
  destruct v as [x y z]; unfold rotate_z; cbn.
  rewrite sin_plus, cos_plus. f_equal; ring.
Qed.

(** X2. Two rotations about one axis compose into the rotation by the sum of
    the angles, and the rotation by the zero angle changes nothing, for each
    of the three axes. *)
Theorem rotate_angles_add (p q : R) (v : vector) :
  (rotate_x p (rotate_x q v) = rotate_x (p + q) v /\ rotate_x 0 v = v) /\
  (rotate_y p (rotate_y q v) = rotate_y (p + q) v /\ rotate_y 0 v = v) /\
  (rotate_z p (rotate_z q v) = rotate_z (p + q) v /\ rotate_z 0 v = v).
Proof.
  repeat split;
    try apply rotate_x_add; try apply rotate_y_add; try apply rotate_z_add;
    destruct v as [x y z]; cbv [rotate_x rotate_y rotate_z]; cbn;
    rewrite sin_0, cos_0; f_equal; ring.
Qed.

(** ** Batches are rotated point by point *)

Lemma points_of_points (l : list vector) : points (of_points l) = l.
Proof.
  unfold points, of_points; cbn.
  induction l as [| [x y z] l IH]; cbn; [reflexivity | now rewrite IH].
Qed.

Lemma zip3_maps (xs ys zs : list R) (m : nat) :
  length xs = m -> length ys = m -> length zs = m ->
  map vx (zip3 xs ys zs) = xs /\
  map vy (zip3 xs ys zs) = ys /\
  map vz (zip3 xs ys zs) = zs.
Proof.
  revert ys zs m. induction xs as [| x xs IH]; intros ys zs m Hx Hy Hz.
  - cbn in Hx; subst m.
    apply length_zero_iff_nil in Hy, Hz. now subst.
  - destruct m as [| m]; [discriminate |].
    destruct ys as [| y ys]; [discriminate |].
    destruct zs as [| z zs]; [discriminate |].
    cbn in *.
    destruct (IH ys zs m) as [E1 [E2 E3]]; try congruence.
    now rewrite E1, E2, E3.
Qed.

Lemma of_points_points (b : batch) (m : nat) :
  samples b m -> of_points (points b) = b.
Proof.
  destruct b as [xs ys zs]. intros [Hx [Hy Hz]]. cbn in *.
  unfold of_points, points; cbn.
  destruct (zip3_maps xs ys zs m Hx Hy Hz) as [E1 [E2 E3]].
  now rewrite E1, E2, E3.
Qed.

Lemma samples_of_points (l : list vector) : samples (of_points l) (length l).
Proof. unfold samples, of_points; cbn. now rewrite !length_map. Qed.

Lemma length_points (b : batch) (m : nat) :
  samples b m -> length (points b) = m.
Proof.
  intros Hb. pose proof (of_points_points b m Hb) as E.
  destruct Hb as [Hx _]. rewrite <- E in Hx. cbn in Hx.
  now rewrite length_map in Hx.
Qed.

Lemma rotate_x_of_points (p : R) (l : list vector) :
  rotate_x p (of_points l) = of_points (map (rotate_x p) l).
Proof.
  unfold of_points, rotate_x at 1. cbn [add sub mulf Arith_ndarray].
  rewrite !map_map, !map2_map_map.
  f_equal; apply map_ext; intros [x y z]; reflexivity.
Qed.

Lemma rotate_y_of_points (p : R) (l : list vector) :
  rotate_y p (of_points l) = of_points (map (rotate_y p) l).
Proof.
  unfold of_points, rotate_y at 1. cbn [add sub mulf Arith_ndarray].
  rewrite !map_map, !map2_map_map.
  f_equal; apply map_ext; intros [x y z]; reflexivity.
Qed.

Lemma rotate_z_of_points (p : R) (l : list vector) :
  rotate_z p (of_points l) = of_points (map (rotate_z p) l).
Proof.
  unfold of_points, rotate_z at 1. cbn [add sub mulf Arith_ndarray].
  rewrite !map_map, !map2_map_map.
  f_equal; apply map_ext; intros [x y z]; reflexivity.
Qed.

(** X3. On a batch whose three arrays have one length, each rotation acts
    point by point: the points of the rotated batch are the rotated points
    of the batch, in the same order and number. *)
Theorem rotate_batch_pointwise (p : R) (b : batch) (m : nat) :
  samples b m ->
  (points (rotate_x p b) = map (rotate_x p) (points b) /\
   samples (rotate_x p b) m) /\
  (points (rotate_y p b) = map (rotate_y p) (points b) /\
   samples (rotate_y p b) m) /\
  (points (rotate_z p b) = map (rotate_z p) (points b) /\
   samples (rotate_z p b) m).
Proof.
  intros Hb. pose proof (length_points b m Hb) as Hl.
  rewrite <- (of_points_points b m Hb).
  rewrite rotate_x_of_points, rotate_y_of_points, rotate_z_of_points.
  rewrite !points_of_points.
  repeat split; try reflexivity;
    cbn [of_points vx vy vz]; rewrite !length_map; exact Hl.
Qed.

Lemma rotate_batch_pointwise_witness :
  let b : batch := Vec3 [1; 0] [0; 1] [0; 0] in
  samples b 2 /\
  points (rotate_z PI b) = map (rotate_z PI) (points b).
Proof.
  cbv zeta.
  assert (H : samples (Vec3 [1; 0] [0; 1] [0; 0] : batch) 2)
    by (repeat split).
  split; [exact H |].
  exact (proj1 (proj2 (proj2
           (rotate_batch_pointwise PI (Vec3 [1; 0] [0; 1] [0; 0]) 2 H)))).
Defined.

(** ** The curve generators, sample by sample *)

Lemma nth_map_seq {A : Type} (g : nat -> A) (len k : nat) (d : A) :
  (k < len)%nat -> nth k (map g (seq 0 len)) d = g k.
Proof.
  intros Hk.
  rewrite (nth_indep _ d (g 0%nat)) by now rewrite length_map, length_seq.
  rewrite map_nth, seq_nth by assumption. reflexivity.
Qed.

(** With [m >= 1] steps, [linspace a b (m + 1)] is [a + k (b - a) / m] for
    [k = 0 .. m]. *)
Lemma linspace_even (a b : R) (m : nat) :
  (1 <= m)%nat ->
  np.linspace a b (S m)
  = map (fun k => a + INR k * (b - a) / INR m) (seq 0 (S m)).
Proof.
  intros Hm. rewrite linspace_snoc by assumption.
  rewrite (seq_S m 0), map_app. cbn [map Nat.add].
  assert (Hpos : INR m <> 0) by (apply not_0_INR; lia).
  f_equal.
  - apply map_ext. intros k. unfold Rdiv. ring.
  - f_equal. field. exact Hpos.
Qed.

(** The angle of sample [k] out of [n] steps around the circle. *)
Lemma circle_samples (n : nat) :
  (1 <= n)%nat ->
  np.linspace (- PI) PI (n + 1)
  = map (fun k => - PI + INR k * (2 * PI) / INR n) (seq 0 (S n)).
Proof.
  intros Hn. replace (n + 1)%nat with (S n) by lia.
  rewrite linspace_even by assumption.
  apply map_ext. intros k. unfold Rdiv. ring.
Qed.

Lemma make_parallel_points (q : R) (n : nat) :
  make_parallel q n
  = of_points (map (parallel_point q) (np.linspace (- PI) PI (n + 1))).
Proof.
  unfold make_parallel, of_points, np.rmul, np.cos, np.sin, np.ones_like.
  rewrite !map_map. f_equal.
  apply map_ext. intros p. cbn. ring.
Qed.

Lemma make_meridian_points (p : R) (n : nat) :
  make_meridian p n
  = of_points (map (fun q => parallel_point q p)
                 (np.linspace (- PI) PI (n + 1))).
Proof.
  unfold make_meridian, of_points, np.cos, np.sin.
  cbn [mulf Arith_ndarray]. rewrite !map_map. reflexivity.
Qed.

Lemma parallel_point_on_sphere (q p : R) : on_sphere (parallel_point q p).
Proof.
  unfold on_sphere, parallel_point; cbn.
  pose proof (sin2_cos2' q) as Eq. pose proof (sin2_cos2' p) as Ep.
  replace (sin q * cos p * (sin q * cos p) + sin q * sin p * (sin q * sin p)
           + cos q * cos q)
    with (sin q * sin q * (sin p * sin p + cos p * cos p) + cos q * cos q)
    by ring.
  rewrite Ep. lra.
Qed.

(** X4. Whatever the colatitude [q] and the resolution [n], [make_parallel]
    yields [n + 1] points, every one on the unit sphere and at the height
    [cos q]. *)
Theorem make_parallel_on_sphere (q : R) (n : nat) :
  samples (make_parallel q n) (n + 1) /\
  Forall (fun v => on_sphere v /\ vz v = cos q) (points (make_parallel q n)).
Proof.
  split; [apply make_parallel_samples |].
  rewrite make_parallel_points, points_of_points.
  apply Forall_map, Forall_forall. intros p _.
  split; [apply parallel_point_on_sphere | reflexivity].
Qed.

(** X5. Whatever the longitude [p] and the resolution [n], [make_meridian]
    yields [n + 1] points, every one on the unit sphere and in the vertical
    plane of longitude [p] (its [x] and [y] are in the ratio
    [cos p : sin p]). *)
Theorem make_meridian_on_sphere (p : R) (n : nat) :
  samples (make_meridian p n) (n + 1) /\
  Forall (fun v => on_sphere v /\ vx v * sin p = vy v * cos p)
    (points (make_meridian p n)).
Proof.
  split; [apply make_meridian_samples |].
  rewrite make_meridian_points, points_of_points.
  apply Forall_map, Forall_forall. intros q _.
  split; [apply parallel_point_on_sphere | cbn; ring].
Qed.

Lemma cos_full_turn_end : cos (- PI + 2 * PI) = cos (- PI).
Proof. replace (- PI + 2 * PI) with PI by ring. now rewrite cos_neg. Qed.

Lemma sin_full_turn_end : sin (- PI + 2 * PI) = sin (- PI).
Proof.
  replace (- PI + 2 * PI) with PI by ring. rewrite sin_neg, sin_PI. ring.
Qed.

Lemma last_circle_angle (n : nat) :
  (1 <= n)%nat -> - PI + INR n * (2 * PI) / INR n = - PI + 2 * PI.
Proof.
  intros Hn. assert (INR n <> 0) by (apply not_0_INR; lia). now field.
Qed.

(** X6. With [n >= 1], sample [k] of [make_parallel q n] is the point of
    colatitude [q] at the longitude [- pi + k * 2 pi / n], for [k = 0 .. n];
    the first and the last sample are the same point, so the curve closes. *)
Theorem make_parallel_evenly_spaced (q : R) (n k : nat) (d : vector) :
  (1 <= n)%nat -> (k <= n)%nat ->
  nth k (points (make_parallel q n)) d
  = parallel_point q (- PI + INR k * (2 * PI) / INR n) /\
  nth 0 (points (make_parallel q n)) d
  = nth n (points (make_parallel q n)) d.
Proof.
  intros Hn Hk.
  rewrite make_parallel_points, points_of_points.
  rewrite circle_samples by assumption. rewrite map_map.
  rewrite !nth_map_seq by lia.
  split; [reflexivity |].
  rewrite last_circle_angle by assumption.
  unfold parallel_point. rewrite cos_full_turn_end, sin_full_turn_end.
  replace (- PI + INR 0 * (2 * PI) / INR n) with (- PI)
    by (cbn [INR]; unfold Rdiv; ring).
  reflexivity.
Qed.

Lemma make_parallel_evenly_spaced_witness :
  (1 <= 100)%nat /\ (25 <= 100)%nat /\
  nth 25 (points (make_parallel (PI / 2) 100)) (Vec3 0 0 0)
  = parallel_point (PI / 2) (- PI + INR 25 * (2 * PI) / INR 100).
Proof.
  assert (H1 : (1 <= 100)%nat) by lia.
  assert (H2 : (25 <= 100)%nat) by lia.
  split; [exact H1 |]. split; [exact H2 |].
  exact (proj1 (make_parallel_evenly_spaced (PI / 2) 100 25 (Vec3 0 0 0)
                  H1 H2)).
Defined.

(** X7. With [n >= 1], sample [k] of [make_meridian p n] is the point of
    longitude [p] at the colatitude [- pi + k * 2 pi / n], for [k = 0 .. n];
    the first and the last sample are both the south pole [(0, 0, -1)]. *)
Theorem make_meridian_evenly_spaced (p : R) (n k : nat) (d : vector) :
  (1 <= n)%nat -> (k <= n)%nat ->
  nth k (points (make_meridian p n)) d
  = parallel_point (- PI + INR k * (2 * PI) / INR n) p /\
  nth 0 (points (make_meridian p n)) d = Vec3 0 0 (-1) /\
  nth n (points (make_meridian p n)) d = Vec3 0 0 (-1).
Proof.
  intros Hn Hk.
  rewrite make_meridian_points, points_of_points.
  rewrite circle_samples by assumption. rewrite map_map.
  rewrite !nth_map_seq by lia.
  split; [reflexivity |].
  rewrite last_circle_angle by assumption.
  replace (- PI + INR 0 * (2 * PI) / INR n) with (- PI)
    by (cbn [INR]; unfold Rdiv; ring).
  unfold parallel_point.
  rewrite cos_full_turn_end, sin_full_turn_end.
  rewrite cos_neg, sin_neg, cos_PI, sin_PI.
  split; f_equal; ring.
Qed.

Lemma make_meridian_evenly_spaced_witness :
  (1 <= 100)%nat /\ (50 <= 100)%nat /\
  nth 0 (points (make_meridian 0 100)) (Vec3 0 0 0) = Vec3 0 0 (-1).
Proof.
  assert (H1 : (1 <= 100)%nat) by lia.
  assert (H2 : (50 <= 100)%nat) by lia.
  split; [exact H1 |]. split; [exact H2 |].
  exact (proj1 (proj2 (make_meridian_evenly_spaced 0 100 50 (Vec3 0 0 0)
                         H1 H2))).
Defined.

(** ** The frame transforms as rigid motions *)

Lemma rotate_y_zero (v : vector) : rotate_y 0 v = v.
Proof.
  destruct v as [x y z]; unfold rotate_y; cbn.
  rewrite sin_0, cos_0. f_equal; ring.
Qed.

Lemma rotate_z_zero (v : vector) : rotate_z 0 v = v.
Proof.
  destruct v as [x y z]; unfold rotate_z; cbn.
  rewrite sin_0, cos_0. f_equal; ring.
Qed.

Lemma rotate_y_inv' (p : R) (v : vector) : rotate_y p (rotate_y (- p) v) = v.
Proof.
  rewrite rotate_y_add. replace (p + - p) with 0 by ring.
  apply rotate_y_zero.
Qed.

Lemma rotate_z_inv' (p : R) (v : vector) : rotate_z p (rotate_z (- p) v) = v.
Proof.
  rewrite rotate_z_add. replace (p + - p) with 0 by ring.
  apply rotate_z_zero.
Qed.

Lemma norm_observer_to_inertial (st : store) (v : vector) :
  norm (transform_observer_to_inertial st v) = norm v.
Proof.
  unfold transform_observer_to_inertial.
  destruct (day_type st =? "solar")%string;
    now rewrite ?norm_rotate_z, norm_rotate_y.
Qed.

Lemma norm_inertial_to_ecliptic (st : store) (v : vector) :
  norm (transform_inertial_to_ecliptic st v) = norm v.
Proof. unfold transform_inertial_to_ecliptic. apply norm_rotate_y. Qed.

(** X8. The three frame transforms keep the length of a vector: observer ->
    inertial and inertial -> ecliptic always, ecliptic -> view whenever it
    returns a vector. *)
Theorem transforms_preserve_norm (st : store) (v : vector) :
  norm (transform_observer_to_inertial st v) = norm v /\
  norm (transform_inertial_to_ecliptic st v) = norm v /\
  match transform_ecliptic_to_view st v with
  | Returns (Some w) => norm w = norm v
  | _ => True
  end.
Proof.
  split; [apply norm_observer_to_inertial |].
  split; [apply norm_inertial_to_ecliptic |].
  unfold transform_ecliptic_to_view.
  destruct (view_type st =? "ecliptic")%string; [reflexivity |].
  destruct (view_type st =? "equator")%string; [apply norm_rotate_y |].
  destruct (view_type st =? "horizon")%string; [| exact I].
  destruct (day_type st =? "solar")%string;
    now rewrite norm_rotate_y, ?norm_rotate_z, norm_rotate_y.
Qed.

(** X9. A solar clock is a sidereal clock advanced by the time of year: with
    day type solar, observer -> inertial and ecliptic -> view are the
    transforms of day type sidereal at the time of day
    [time_of_year + time_of_day]. *)
Theorem solar_day_adds_time_of_year
    (o l ty td : R) (view : string) (v : vector) :
  transform_observer_to_inertial (Store o l ty td view "solar") v
  = transform_observer_to_inertial (Store o l ty (ty + td) view "sidereal") v
  /\
  transform_ecliptic_to_view (Store o l ty td view "solar") v
  = transform_ecliptic_to_view (Store o l ty (ty + td) view "sidereal") v.
Proof.
  unfold transform_observer_to_inertial, transform_ecliptic_to_view.
  cbn [day_type view_type obliquity latitude time_of_year time_of_day].
  change (("solar" =? "solar")%string) with true.
  change (("sidereal" =? "solar")%string) with false.
  cbv iota. split.
  - now rewrite rotate_z_add.
  - rewrite rotate_z_add.
    replace (- ty + - td) with (- (ty + td)) by ring. reflexivity.
Qed.

(** X10. A day type other than solar, known or not, is treated as sidereal:
    the time of year takes no part in either transform, and nothing is
    raised. *)
Theorem unknown_day_type_is_sidereal
    (o l ty td : R) (view day : string) (v : vector) :
  day <> "solar"%string ->
  transform_observer_to_inertial (Store o l ty td view day) v
  = rotate_z td (rotate_y (PI / 2 - l) v) /\
  transform_ecliptic_to_view (Store o l ty td view day) v
  = transform_ecliptic_to_view (Store o l 0 td view "sidereal") v.
Proof.
  intros Hd. apply String.eqb_neq in Hd.
  unfold transform_observer_to_inertial, transform_ecliptic_to_view.
  cbn [day_type view_type obliquity latitude time_of_year time_of_day].
  rewrite Hd. change (("sidereal" =? "solar")%string) with false.
  split; reflexivity.
Qed.

Lemma unknown_day_type_is_sidereal_witness :
  "lunar"%string <> "solar"%string /\
  transform_observer_to_inertial (Store 0 0 1 0 "horizon" "lunar")
    (Vec3 1 0 0 : vector)
  = rotate_z 0 (rotate_y (PI / 2 - 0) (Vec3 1 0 0)).
Proof.
  assert (H : "lunar"%string <> "solar"%string) by discriminate.
  split; [exact H |].
  exact (proj1 (unknown_day_type_is_sidereal 0 0 1 0 "horizon" "lunar"
                  (Vec3 1 0 0) H)).
Defined.

(** X11. Ecliptic -> view is an inverse on both sides: whatever it returns
    in the equator view is taken back to the input by inertial -> ecliptic,
    and whatever it returns in the horizon view is taken back by
    observer -> inertial followed by inertial -> ecliptic. *)
Theorem view_then_back (o l ty td : R) (day : string) (v : vector) :
  (let st := Store o l ty td "equator" day in
   exists w, transform_ecliptic_to_view st v = Returns (Some w) /\
             transform_inertial_to_ecliptic st w = v) /\
  (let st := Store o l ty td "horizon" day in
   exists w, transform_ecliptic_to_view st v = Returns (Some w) /\
             transform_inertial_to_ecliptic st
               (transform_observer_to_inertial st w) = v).
Proof.
  split; cbv zeta; eexists; (split; [reflexivity |]).
  - unfold transform_inertial_to_ecliptic. cbn [obliquity].
    apply rotate_y_inv'.
  - unfold transform_inertial_to_ecliptic, transform_observer_to_inertial.
    cbn [view_type day_type obliquity latitude time_of_year time_of_day].
    rewrite (rotate_y_inv' (PI / 2 - l)).
    destruct (day =? "solar")%string.
    + rewrite (rotate_z_comm ty td), rotate_z_inv'.
      now rewrite rotate_z_inv', rotate_y_inv'.
    + now rewrite rotate_z_inv', rotate_y_inv'.
Qed.

(** ** The transforms on batches *)

Lemma observer_to_inertial_of_points (st : store) (l : list vector) :
  transform_observer_to_inertial st (of_points l)
  = of_points (map (transform_observer_to_inertial st) l).
Proof.
  unfold transform_observer_to_inertial.
  destruct (day_type st =? "solar")%string;
    rewrite rotate_y_of_points, ?rotate_z_of_points, !map_map; reflexivity.
Qed.

Lemma inertial_to_ecliptic_of_points (st : store) (l : list vector) :
  transform_inertial_to_ecliptic st (of_points l)
  = of_points (map (transform_inertial_to_ecliptic st) l).
Proof.
  unfold transform_inertial_to_ecliptic. apply rotate_y_of_points.
Qed.

Lemma map_fixed {A : Type} (f : A -> A) (l : list A) :
  (forall a, f a = a) -> map f l = l.
Proof.
  intros Hf. rewrite <- (map_id l) at 2. now apply map_ext.
Qed.

Lemma horizon_round_trip_vector (o l ty td : R) (day : string) (v : vector) :
  rotate_y (- (PI / 2 - l))
    (if (day =? "solar")%string
     then rotate_z (- ty) (rotate_z (- td) (rotate_y (- o)
            (transform_inertial_to_ecliptic (Store o l ty td "horizon" day)
               (transform_observer_to_inertial
                  (Store o l ty td "horizon" day) v))))
     else rotate_z (- td) (rotate_y (- o)
            (transform_inertial_to_ecliptic (Store o l ty td "horizon" day)
               (transform_observer_to_inertial
                  (Store o l ty td "horizon" day) v))))
  = v.
Proof.
  unfold transform_inertial_to_ecliptic, transform_observer_to_inertial.
  cbn [day_type obliquity latitude time_of_year time_of_day].
  rewrite rotate_y_inv.
  destruct (day =? "solar")%string.
  - rewrite (rotate_z_comm ty td), rotate_z_inv.
    now rewrite rotate_z_inv, rotate_y_inv.
  - now rewrite rotate_z_inv, rotate_y_inv.
Qed.

(** X12. The round trips hold for whole curves: on a batch whose three
    arrays have one length, observer -> inertial, inertial -> ecliptic and
    the horizon view return the batch itself, and inertial -> ecliptic and
    the equator view do too. *)
Theorem transform_round_trip_batch
    (o l ty td : R) (day : string) (b : batch) (m : nat) :
  samples b m ->
  (let st := Store o l ty td "horizon" day in
   transform_ecliptic_to_view st
     (transform_inertial_to_ecliptic st
        (transform_observer_to_inertial st b)) = Returns (Some b)) /\
  (let st := Store o l ty td "equator" day in
   transform_ecliptic_to_view st (transform_inertial_to_ecliptic st b)
   = Returns (Some b)).
Proof.
  intros Hb. rewrite <- (of_points_points b m Hb).
  set (pts := points b). cbv zeta. split.
  - rewrite observer_to_inertial_of_points, inertial_to_ecliptic_of_points.
    unfold transform_ecliptic_to_view.
    cbn [view_type day_type obliquity latitude time_of_year time_of_day].
    change (("horizon" =? "ecliptic")%string) with false.
    change (("horizon" =? "equator")%string) with false.
    change (("horizon" =? "horizon")%string) with true.
    cbv iota. do 2 f_equal.
    pose proof (horizon_round_trip_vector o l ty td day) as Hv.
    destruct (day =? "solar")%string;
      rewrite rotate_y_of_points, !rotate_z_of_points, rotate_y_of_points,
        !map_map;
      f_equal; apply map_fixed; intros v; apply Hv.
  - rewrite inertial_to_ecliptic_of_points.
    unfold transform_ecliptic_to_view.
    cbn [view_type obliquity].
    change (("equator" =? "ecliptic")%string) with false.
    change (("equator" =? "equator")%string) with true.
    cbv iota. do 2 f_equal.
    rewrite rotate_y_of_points, map_map.
    f_equal. apply map_fixed. intros v.
    unfold transform_inertial_to_ecliptic. cbn [obliquity].
    apply rotate_y_inv.
Qed.

Lemma transform_round_trip_batch_witness :
  let b : batch := Vec3 [1; 0] [0; 1] [0; 0] in
  let st := Store 1 1 1 1 "horizon" "solar" in
  samples b 2 /\
  transform_ecliptic_to_view st
    (transform_inertial_to_ecliptic st
       (transform_observer_to_inertial st b)) = Returns (Some b).
Proof.
  cbv zeta.
  assert (H : samples (Vec3 [1; 0] [0; 1] [0; 0] : batch) 2)
    by (repeat split).
  split; [exact H |].
  exact (proj1 (transform_round_trip_batch 1 1 1 1 "solar"
                  (Vec3 [1; 0] [0; 1] [0; 0]) 2 H)).
Defined.

(** ** The scene *)

Lemma rotate_z_parallel_point (q p a : R) :
  rotate_z a (parallel_point q p) = parallel_point q (a + p).
Proof.
  unfold rotate_z, parallel_point; cbn.
  rewrite sin_plus, cos_plus. f_equal; ring.
Qed.

Lemma rotate_y_up (q : R) : rotate_y q (Vec3 0 0 1) = parallel_point q 0.
Proof.
  unfold rotate_y, parallel_point; cbn.
  rewrite sin_0, cos_0. f_equal; ring.
Qed.

Lemma scene_parallel_points (st : store) (q : R) :
  points (transform_inertial_to_ecliptic st (make_parallel q default_n))
  = map (fun p => transform_inertial_to_ecliptic st (parallel_point q p))
      (np.linspace (- PI) PI 101).
Proof.
  rewrite make_parallel_points, inertial_to_ecliptic_of_points.
  rewrite points_of_points, map_map. reflexivity.
Qed.

(** X13. The zenith marker lies on the circle drawn as the zenith's daily
    path: the marker is the image under inertial -> ecliptic of the point of
    colatitude [pi/2 - latitude] at the longitude given by the clock
    ([time_of_day], plus [time_of_year] on a solar clock), and the circle is
    the image of the points of that colatitude at the 101 sampled
    longitudes. *)
Theorem zenith_on_its_daily_path (st : store) :
  let q := PI / 2 - latitude st in
  let clock :=
    if (day_type st =? "solar")%string
    then time_of_year st + time_of_day st else time_of_day st in
  scene_zenith st
  = transform_inertial_to_ecliptic st (parallel_point q clock) /\
  points (scene_zenith_path st)
  = map (fun p => transform_inertial_to_ecliptic st (parallel_point q p))
      (np.linspace (- PI) PI 101).
Proof.
  cbv zeta. split; [| apply scene_parallel_points].
  unfold scene_zenith. f_equal.
  unfold transform_observer_to_inertial.
  rewrite rotate_y_up.
  destruct (day_type st =? "solar")%string;
    rewrite !rotate_z_parallel_point; f_equal; ring.
Qed.

(** X14. The Sun marker lies on the circle drawn as the sun path: taken back
    to the inertial frame it is a point of the unit sphere at the height
    [cos (sun_path_colatitude st)], and the sun path is the image under
    inertial -> ecliptic of the points of that colatitude. *)
Theorem sun_on_sun_path (st : store) :
  let q := sun_path_colatitude st in
  let w := rotate_y (- obliquity st) (scene_sun st) in
  transform_inertial_to_ecliptic st w = scene_sun st /\
  on_sphere w /\
  vz w = cos q /\
  points (scene_sun_path st)
  = map (fun p => transform_inertial_to_ecliptic st (parallel_point q p))
      (np.linspace (- PI) PI 101).
Proof.
  cbv zeta.
  split; [unfold transform_inertial_to_ecliptic; apply rotate_y_inv' |].
  split; [| split; [| apply scene_parallel_points]].
  - unfold on_sphere, scene_sun, rotate_y, rotate_z; cbn.
    rewrite sin_neg, cos_neg.
    pose proof (sin2_cos2' (time_of_year st)) as Et.
    pose proof (sin2_cos2' (obliquity st)) as Eo.
    set (ct := cos (time_of_year st)) in *.
    set (s := sin (time_of_year st)) in *.
    set (co := cos (obliquity st)) in *.
    set (so := sin (obliquity st)) in *.
    replace ((0 * - so + (1 * ct - 0 * s) * co)
             * (0 * - so + (1 * ct - 0 * s) * co)
             + (1 * s + 0 * ct) * (1 * s + 0 * ct)
             + (0 * co - (1 * ct - 0 * s) * - so)
               * (0 * co - (1 * ct - 0 * s) * - so))
      with (ct * ct * (so * so + co * co) + s * s) by ring.
    rewrite Eo. lra.
  - unfold sun_path_colatitude.
    rewrite cos_acos by apply declination_arg_bound.
    unfold scene_sun, rotate_y, rotate_z; cbn.
    rewrite sin_neg. ring.
Qed.

(** X15. The colatitude [celesph.py] draws the sun path at is the complement
    of the declination [sunpath.py] computes, and lies between [0] and
    [pi]. *)
Theorem sun_path_colatitude_is_codeclination (st : store) :
  sun_path_colatitude st
  = PI / 2 - get_sun_declination (obliquity st) (time_of_year st) /\
  0 <= sun_path_colatitude st <= PI.
Proof.
  unfold sun_path_colatitude, get_sun_declination. split.
  - apply acos_asin. apply declination_arg_bound.
  - apply acos_bound.
Qed.


(** ** The controls *)

Lemma demo_init_in_step : view_in_step demo_init /\ day_in_step demo_init.
Proof. split; left; split; reflexivity. Qed.

Lemma on_key_press_in_step (key : string) (s : demo_state) :
  view_in_step s -> day_in_step s ->
  view_in_step (on_key_press key s) /\ day_in_step (on_key_press key s).
Proof.
  intros Hv Hd. unfold on_key_press.
  destruct (key =? "1")%string.
  - destruct s as [st vi di]. unfold view_in_step, day_in_step in *.
    cbn [params view_type_iter day_type_iter] in *.
    split.
    + destruct Hv as [[_ E] | [[_ E] | [_ E]]]; subst vi; cbn;
        [right; left | right; right | left]; split; reflexivity.
    + destruct (cycle_next vi) as [v it]. cbn. exact Hd.
  - destruct (key =? "2")%string; [| split; assumption].
    destruct s as [st vi di]. unfold view_in_step, day_in_step in *.
    cbn [params view_type_iter day_type_iter] in *.
    split.
    + destruct (cycle_next di) as [d it]. cbn. exact Hv.
    + destruct Hd as [[_ E] | [_ E]]; subst di; cbn;
        [right | left]; split; reflexivity.
Qed.

Lemma handle_in_step (s : demo_state) (e : event) :
  view_in_step s -> day_in_step s ->
  view_in_step (handle s e) /\ day_in_step (handle s e).
Proof.
  intros Hv Hd. destruct e as [key | v | v | v | v]; cbn [handle];
    [now apply on_key_press_in_step | | | |]; split; assumption.
Qed.

Lemma run_in_step (events : list event) (s : demo_state) :
  view_in_step s -> day_in_step s ->
  view_in_step (run events s) /\ day_in_step (run events s).
Proof.
  revert s. induction events as [| e events IH]; intros s Hv Hd.
  - split; assumption.
  - cbn. destruct (handle_in_step s e Hv Hd) as [Hv' Hd'].
    now apply IH.
Qed.

Lemma view_in_step_returns (s : demo_state) (v : vector) :
  view_in_step s ->
  exists w, transform_ecliptic_to_view (params s) v = Returns (Some w).
Proof.
  intros [[E _] | [[E _] | [E _]]];
    unfold transform_ecliptic_to_view; rewrite E; cbn; eexists; reflexivity.
Qed.

(** X16. Whatever keys are pressed and sliders moved after start-up, the
    view type in the store is one of ecliptic, equator and horizon, the day
    type is sidereal or solar, and ecliptic -> view returns a vector: the
    fall-through that returns [None] is never reached from the controls. *)
Theorem demo_modes_stay_valid (events : list event) (v : vector) :
  let st := params (run events demo_init) in
  (view_type st = "ecliptic" \/ view_type st = "equator"
   \/ view_type st = "horizon")%string /\
  (day_type st = "sidereal" \/ day_type st = "solar")%string /\
  exists w, transform_ecliptic_to_view st v = Returns (Some w).
Proof.
  cbv zeta.
  destruct demo_init_in_step as [Hv0 Hd0].
  destruct (run_in_step events demo_init Hv0 Hd0) as [Hv Hd].
  split; [| split].
  - destruct Hv as [[E _] | [[E _] | [E _]]]; auto.
  - destruct Hd as [[E _] | [E _]]; auto.
  - now apply view_in_step_returns.
Qed.

(** X17. From any state the controls can reach, key 1 moves the view type
    on to a different one and three presses bring the whole state back;
    key 2 switches the day type and two presses bring the state back. *)
Theorem demo_keys_cycle (events : list event) :
  let s := run events demo_init in
  run [KeyPress "1"; KeyPress "1"; KeyPress "1"] s = s /\
  view_type (params (on_key_press "1" s)) <> view_type (params s) /\
  run [KeyPress "2"; KeyPress "2"] s = s /\
  day_type (params (on_key_press "2" s)) <> day_type (params s).
Proof.
  cbv zeta.
  destruct demo_init_in_step as [Hv0 Hd0].
  destruct (run_in_step events demo_init Hv0 Hd0) as [Hv Hd].
  destruct (run events demo_init) as [[o l ty td view day] vi di].
  unfold view_in_step, day_in_step in Hv, Hd.
  cbn [params view_type_iter day_type_iter view_type day_type] in Hv, Hd.
  split; [| split; [| split]].
  - destruct Hv as [[E1 E2] | [[E1 E2] | [E1 E2]]]; subst view vi;
      reflexivity.
  - destruct Hv as [[E1 E2] | [[E1 E2] | [E1 E2]]]; subst view vi;
      cbn; discriminate.
  - destruct Hd as [[E1 E2] | [E1 E2]]; subst day di; reflexivity.
  - destruct Hd as [[E1 E2] | [E1 E2]]; subst day di; cbn; discriminate.
Qed.

(** ** Sunlit fraction *)

Lemma clip_inside (x : R) : -1 <= x <= 1 -> np.clip x (-1) 1 = x.
Proof.
  intros Hx. unfold np.clip.
  rewrite Rmax_left by lra. rewrite Rmin_left; lra.
Qed.

Lemma clip_opp (x : R) : np.clip (- x) (-1) 1 = - np.clip x (-1) 1.
Proof.
  destruct (Rle_lt_dec x (-1)) as [Hlo | Hlo].
  - rewrite (clip_below x Hlo), clip_above by lra. lra.
  - destruct (Rle_lt_dec 1 x) as [Hhi | Hhi].
    + rewrite (clip_above x Hhi), clip_below by lra. lra.
    + now rewrite !clip_inside by lra.
Qed.

Lemma clip_zero : np.clip 0 (-1) 1 = 0.
Proof.
  unfold np.clip. rewrite Rmax_left by lra. rewrite Rmin_left; lra.
Qed.

Lemma acos_over_pi (x : R) : 0 <= acos x / PI <= 1.
Proof.
  pose proof PI_RGT_0 as Hpi. pose proof (acos_bound x) as [H0 H1].
  split.
  - apply Rmult_le_pos; [assumption |]. left. now apply Rinv_0_lt_compat.
  - apply Rmult_le_reg_r with PI; [assumption |].
    unfold Rdiv. rewrite Rmult_assoc, Rinv_l by lra. lra.
Qed.

(** X18. The sunlit fraction is a fraction: between [0] and [1] for every
    latitude and declination, the saturated cases included. *)
Theorem sunlit_fraction_is_fraction (l d : R) :
  0 <= sunlit_fraction l d <= 1.
Proof.
  unfold sunlit_fraction.
  pose proof (acos_over_pi (np.clip (tan l * tan d) (-1) 1)) as Hq.
  lra.
Qed.

Lemma sunlit_fraction_half (x : R) :
  x = 0 -> 1 - acos (np.clip x (-1) 1) / PI = 1 / 2.
Proof.
  intros ->. rewrite clip_zero, acos_0. field. apply PI_neq0.
Qed.

(** X19. On the equator every day is half lit, and at the equinox
    (declination [0]) every latitude is: the sunlit fraction is [1/2]. *)
Theorem sunlit_fraction_equator_equinox (l d : R) :
  sunlit_fraction 0 d = 1 / 2 /\ sunlit_fraction l 0 = 1 / 2.
Proof.
  unfold sunlit_fraction. split; apply sunlit_fraction_half;
    rewrite tan_0; ring.
Qed.

(** X20. Changing the sign of the declination, or of the latitude, turns the
    sunlit fraction into its complement to [1]; changing both leaves it as
    it is. *)
Theorem sunlit_fraction_complement (l d : R) :
  sunlit_fraction l (- d) = 1 - sunlit_fraction l d /\
  sunlit_fraction (- l) d = 1 - sunlit_fraction l d /\
  sunlit_fraction (- l) (- d) = sunlit_fraction l d.
Proof.
  unfold sunlit_fraction. rewrite !tan_neg.
  replace (tan l * - tan d) with (- (tan l * tan d)) by ring.
  replace (- tan l * tan d) with (- (tan l * tan d)) by ring.
  replace (- tan l * - tan d) with (tan l * tan d) by ring.
  rewrite clip_opp, acos_opp.
  repeat split; field; apply PI_neq0.
Qed.

(** ** Sunrise azimuth *)

Lemma tan_zero_inside (d : R) :
  - (PI / 2) < d < PI / 2 -> tan d = 0 -> d = 0.
Proof.
  intros Hd E. rewrite <- (atan_tan d Hd), E. apply atan_0.
Qed.

Lemma arctan2_one (x d : R) :
  - (PI / 2) < d < PI / 2 -> x = tan d -> np.arctan2 1 x = PI / 2 - d.
Proof.
  intros Hd ->. unfold np.arctan2.
  destruct (Rlt_dec 0 (tan d)) as [Hp | Hp].
  - unfold Rdiv. rewrite Rmult_1_l, atan_inv by assumption.
    now rewrite atan_tan.
  - destruct (Rlt_dec (tan d) 0) as [Hn | Hn].
    + destruct (Rle_dec 0 1) as [_ | ?]; [| lra].
      replace (1 / tan d) with (- / (- tan d))
        by (field; lra).
      rewrite atan_opp, atan_inv by lra.
      rewrite atan_opp, atan_tan by assumption. lra.
    + destruct (Rlt_dec 0 1) as [_ | ?]; [| lra].
      rewrite (tan_zero_inside d Hd) by lra. lra.
Qed.

(** X21. At the equinox the Sun rises due east at every latitude (azimuth
    [pi/2]); on the equator it rises [d] north of east for a declination [d]
    strictly inside a right angle (azimuth [pi/2 - d]). *)
Theorem sunrise_azimuth_equinox_equator (l d : R) :
  - (PI / 2) < d < PI / 2 ->
  sunrise_azimuth l 0 = PI / 2 /\ sunrise_azimuth 0 d = PI / 2 - d.
Proof.
  intros Hd. unfold sunrise_azimuth. split.
  - rewrite tan_0, Rmult_0_r, clip_zero.
    replace (1 - 0 ^ 2) with 1 by ring. rewrite sqrt_1.
    replace (PI / 2) with (PI / 2 - 0) by ring.
    apply arctan2_one.
    + pose proof PI_RGT_0. lra.
    + rewrite tan_0. ring.
  - rewrite tan_0, Rmult_0_l, clip_zero.
    replace (1 - 0 ^ 2) with 1 by ring. rewrite sqrt_1.
    apply arctan2_one; [assumption |].
    rewrite sin_0, cos_0. ring.
Qed.

Lemma sunrise_azimuth_equinox_equator_witness :
  - (PI / 2) < 1 < PI / 2 /\ sunrise_azimuth 0 1 = PI / 2 - 1.
Proof.
  assert (H : - (PI / 2) < 1 < PI / 2) by (pose proof PI2_1; lra).
  split; [exact H |].
  exact (proj2 (sunrise_azimuth_equinox_equator 0 1 H)).
Defined.

(** ** Declination through the year *)

(** X22. The declination is the angle between [- pi/2] and [pi/2] whose sine
    is [cos t * sin o]; it is the same at [- t] as at [t], changes sign with
    the obliquity, and changes sign half a year later. *)
Theorem declination_symmetries (o t : R) :
  sin (get_sun_declination o t) = cos t * sin o /\
  - (PI / 2) <= get_sun_declination o t <= PI / 2 /\
  get_sun_declination o (- t) = get_sun_declination o t /\
  get_sun_declination (- o) t = - get_sun_declination o t /\
  get_sun_declination o (t + PI) = - get_sun_declination o t.
Proof.
  unfold get_sun_declination.
  split; [apply sin_asin, declination_arg_bound |].
  split; [apply asin_bound |].
  split; [now rewrite cos_neg |].
  split.
  - rewrite sin_neg, <- asin_opp. f_equal. ring.
  - rewrite neg_cos, <- asin_opp. f_equal. ring.
Qed.


(** ** The sun path as a circle on the sphere *)

Lemma make_sun_path_points (o t l : R) :
  make_sun_path o t l
  = of_points
      (map (fun p =>
              Vec3 (sin l * cos (get_sun_declination o t) * cos p
                    + cos l * sin (get_sun_declination o t))
                   (cos (get_sun_declination o t) * sin p)
                   (- cos l * cos (get_sun_declination o t) * cos p
                    + sin l * sin (get_sun_declination o t)))
         (np.linspace (- PI) PI 101)).
Proof.
  unfold make_sun_path, of_points, np.addf, np.rmul, np.cos, np.sin.
  now rewrite !map_map.
Qed.

(** X23. The sun path has 101 points; each lies on the unit sphere and in
    the plane at the distance [sin d] from the centre along the polar axis
    [(cos l, 0, sin l)], [d] being the declination; the first and the last
    point coincide. *)
Theorem make_sun_path_diurnal_circle (o t l : R) (dflt : vector) :
  let d := get_sun_declination o t in
  samples (make_sun_path o t l) 101 /\
  Forall (fun v => on_sphere v /\ vx v * cos l + vz v * sin l = sin d)
    (points (make_sun_path o t l)) /\
  nth 0 (points (make_sun_path o t l)) dflt
  = nth 100 (points (make_sun_path o t l)) dflt.
Proof.
  cbv zeta. rewrite make_sun_path_points.
  set (d := get_sun_declination o t).
  pose proof (sin2_cos2' l) as El. pose proof (sin2_cos2' d) as Ed.
  split; [| split].
  - unfold samples, of_points; cbn [vx vy vz].
    now rewrite !length_map, length_linspace.
  - rewrite points_of_points. apply Forall_map, Forall_forall. intros p _.
    pose proof (sin2_cos2' p) as Ep.
    unfold on_sphere; cbn [vx vy vz].
    set (sl := sin l) in *. set (cl := cos l) in *.
    set (sd := sin d) in *. set (cd := cos d) in *.
    set (sp := sin p) in *. set (cp := cos p) in *.
    split.
    + transitivity ((sl * sl + cl * cl) * (cd * cd * (cp * cp) + sd * sd)
                    + cd * cd * (sp * sp)); [ring |].
      rewrite El.
      transitivity (cd * cd * (sp * sp + cp * cp) + sd * sd); [ring |].
      rewrite Ep. lra.
    + transitivity (sd * (sl * sl + cl * cl)); [ring |].
      rewrite El. ring.
  - rewrite points_of_points.
    change 101%nat with (100 + 1)%nat.
    rewrite circle_samples by lia. rewrite map_map.
    rewrite !nth_map_seq by lia.
    rewrite last_circle_angle by lia.
    rewrite cos_full_turn_end, sin_full_turn_end.
    replace (- PI + INR 0 * (2 * PI) / INR 100) with (- PI)
      by (cbn [INR]; unfold Rdiv; ring).
    reflexivity.
Qed.

(** ** What the two annual plots evaluate *)

Lemma earth_obliquity_acute : 0 < earth_obliquity < PI / 2.
Proof. unfold earth_obliquity. pose proof PI_RGT_0. lra. Qed.

Lemma plot_latitudes_steps :
  plot_latitudes = map (fun k => INR k * (PI / 12)) (seq 0 6).
Proof.
  unfold plot_latitudes. rewrite slice_m1_linspace.
  apply map_ext. intros k. simpl INR. field.
Qed.

Lemma plot_latitudes_below_pole :
  Forall (fun l => 0 <= l < PI / 2) plot_latitudes.
Proof.
  rewrite plot_latitudes_steps. apply Forall_map, Forall_forall.
  intros k Hk. apply in_seq in Hk.
  pose proof PI_RGT_0 as Hpi. pose proof (pos_INR k) as H0.
  assert (H5 : INR k <= 5).
  { replace 5 with (INR 5) by (simpl; lra). apply le_INR. lia. }
  split; nra.
Qed.

Lemma year_declinations_bounded :
  Forall (fun d => - earth_obliquity <= d <= earth_obliquity)
    year_declinations.
Proof.
  unfold year_declinations. apply Forall_map, Forall_forall. intros t _.
  pose proof (declination_within_abs earth_obliquity t) as Hb.
  rewrite Rabs_pos_eq in Hb by (pose proof earth_obliquity_acute; lra).
  exact Hb.
Qed.

(** X24. The two annual plots never take a tangent at a right angle: the
    loops run over the six latitudes [k pi / 12], [k = 0 .. 5], all in
    [[0, pi/2)] (the pole is sliced off), and over 361 declinations, all
    within the Earth's obliquity of zero, which is less than [pi/2]. *)
Theorem plots_avoid_the_pole :
  plot_latitudes = map (fun k => INR k * (PI / 12)) (seq 0 6) /\
  Forall (fun l => 0 <= l < PI / 2) plot_latitudes /\
  length year_declinations = 361%nat /\
  Forall (fun d => - earth_obliquity <= d <= earth_obliquity)
    year_declinations /\
  0 < earth_obliquity < PI / 2.
Proof.
  split; [apply plot_latitudes_steps |].
  split; [apply plot_latitudes_below_pole |].
  split.
  { unfold year_declinations. now rewrite length_map, length_linspace. }
  split; [apply year_declinations_bounded | apply earth_obliquity_acute].
Qed.

Lemma length_year_declinations : length year_declinations = 361%nat.
Proof. unfold year_declinations. now rewrite length_map, length_linspace. Qed.

(** X25. Each plot draws six curves of 361 values; the insolation values lie
    between [0] and [1] and the sunrise azimuths between [0] and [pi]; the
    first curve, the equator's, is constantly [1/2] in the insolation plot
    and is [pi/2 - d] at each declination [d] in the sunrise plot. *)
Theorem plot_curves_ranges :
  (length insolation_curves = 6%nat /\
   Forall (fun c => length c = 361%nat /\ Forall (fun f => 0 <= f <= 1) c)
     insolation_curves /\
   nth 0 insolation_curves [] = map (fun _ => 1 / 2) year_declinations) /\
  (length sunrise_curves = 6%nat /\
   Forall (fun c => length c = 361%nat /\ Forall (fun a => 0 <= a <= PI) c)
     sunrise_curves /\
   nth 0 sunrise_curves [] = map (fun d => PI / 2 - d) year_declinations).
Proof.
  unfold insolation_curves, sunrise_curves.
  rewrite plot_latitudes_steps.
  split; (split; [now rewrite !length_map, length_seq |]); split.
  - apply Forall_map, Forall_map, Forall_forall. intros k _.
    split; [now rewrite length_map, length_year_declinations |].
    apply Forall_map, Forall_forall. intros d _.
    unfold sunlit_fraction.
    pose proof (acos_over_pi
                  (np.clip (tan (INR k * (PI / 12)) * tan d) (-1) 1)).
    lra.
  - cbn [seq map nth]. apply map_ext. intros d.
    unfold sunlit_fraction.
    replace (INR 0 * (PI / 12)) with 0 by (cbn [INR]; ring).
    rewrite tan_0, Rmult_0_l, clip_zero.
    rewrite acos_0. field. apply PI_neq0.
  - apply Forall_map, Forall_map, Forall_forall. intros k _.
    split; [now rewrite length_map, length_year_declinations |].
    apply Forall_map, Forall_forall. intros d _.
    unfold sunrise_azimuth. apply arctan2_upper_half, sqrt_pos.
  - cbn [seq map nth]. apply map_ext_in. intros d Hd.
    pose proof year_declinations_bounded as Hb.
    rewrite Forall_forall in Hb. specialize (Hb d Hd).
    pose proof earth_obliquity_acute as He.
    unfold sunrise_azimuth.
    replace (INR 0 * (PI / 12)) with 0 by (cbn [INR]; ring).
    rewrite tan_0, Rmult_0_l, clip_zero.
    replace (1 - 0 ^ 2) with 1 by ring. rewrite sqrt_1.
    apply arctan2_one; [lra |].
    rewrite sin_0, cos_0. ring.
Qed.

(** ** More on the globe *)

(** X26. With [i = 0] and [j >= 0] the globe has no parallel at all: it is
    the [2 j] meridians at the longitudes [k pi / (2 j)], and with [j = 0]
    too it is empty. *)
Theorem make_globe_meridians_only (j n : Z) :
  (0 <= j)%Z ->
  make_globe 0 j n
  = Returns (map (fun p => make_meridian p default_n)
               (map (grid_angle j) (seq 0 (Z.to_nat (2 * j))))) /\
  make_globe 0 0 n = Returns [].
Proof.
  intros Hj. split.
  - rewrite make_globe_returns by lia.
    now rewrite globe_longitudes by lia.
  - rewrite make_globe_returns by lia. reflexivity.
Qed.

Lemma make_globe_meridians_only_witness :
  (0 <= 3)%Z /\
  make_globe 0 3 100
  = Returns (map (fun p => make_meridian p default_n)
               (map (grid_angle 3) (seq 0 6))).
Proof.
  assert (H : (0 <= 3)%Z) by lia.
  split; [exact H |].
  exact (proj1 (make_globe_meridians_only 3 100 H)).
Defined.

(** X27. Every point of every curve of a globe lies on the unit sphere. *)
Theorem make_globe_on_sphere (i j n : Z) :
  match make_globe i j n with
  | Returns cs => Forall (fun c => Forall on_sphere (points c)) cs
  | Raises _ => (i < 0)%Z \/ (j < 0)%Z
  end.
Proof.
  destruct (Z.leb_spec 0 i) as [Hi | Hi];
    [| rewrite make_globe_negative by lia; lia].
  destruct (Z.leb_spec 0 j) as [Hj | Hj];
    [| rewrite make_globe_negative by lia; lia].
  rewrite make_globe_returns by lia.
  apply Forall_app; split; apply Forall_map, Forall_forall; intros a _.
  - rewrite make_parallel_points, points_of_points.
    apply Forall_map, Forall_forall. intros p _.
    apply parallel_point_on_sphere.
  - rewrite make_meridian_points, points_of_points.
    apply Forall_map, Forall_forall. intros q _.
    apply parallel_point_on_sphere.
Qed.

(** ** Sunset equation and sunrise azimuth in closed form *)

(** X28. The sunlit fraction solves the sunset equation: the half-day arc
    [H = pi * sunlit_fraction l d] satisfies [cos H = - tan l * tan d], with
    the product clamped to [[-1, 1]]. *)
Theorem sunlit_fraction_sunset_equation (l d : R) :
  cos (PI * sunlit_fraction l d) = - np.clip (tan l * tan d) (-1) 1.
Proof.
  unfold sunlit_fraction.
  set (f := np.clip (tan l * tan d) (-1) 1).
  replace (PI * (1 - acos f / PI)) with (- acos f + PI)
    by (field; apply PI_neq0).
  rewrite neg_cos, cos_neg, cos_acos by apply clip_range. reflexivity.
Qed.

Lemma sqrt_of_square_quotient (r x : R) :
  0 < r -> 0 < x -> sqrt (r * r / (x * x)) = r / x.
Proof.
  intros Hr Hx. apply sqrt_lem_1.
  - apply Rmult_le_pos; [nra |]. left. apply Rinv_0_lt_compat. nra.
  - left. now apply Rdiv_lt_0_compat.
  - field. lra.
Qed.

Lemma cos_atan_ratio (x y r : R) :
  0 < r -> x <> 0 -> x * x + y * y = r * r ->
  cos (atan (y / x)) = Rabs x / r.
Proof.
  intros Hr Hx E. rewrite cos_atan. unfold Rsqr.
  assert (Ha : 0 < Rabs x) by now apply Rabs_pos_lt.
  assert (Hsq : Rabs x * Rabs x = x * x).
  { unfold Rabs. destruct (Rcase_abs x); ring. }
  replace (1 + y / x * (y / x)) with (r * r / (Rabs x * Rabs x)).
  - rewrite sqrt_of_square_quotient by assumption. field. split; lra.
  - rewrite Hsq, <- E. field. exact Hx.
Qed.

Lemma cos_arctan2 (x y r : R) :
  0 <= y -> 0 < r -> x * x + y * y = r * r ->
  cos (np.arctan2 y x) = x / r.
Proof.
  intros Hy Hr E. unfold np.arctan2.
  destruct (Rlt_dec 0 x) as [Hx | Hx].
  - rewrite (cos_atan_ratio x y r) by (try assumption; lra).
    now rewrite Rabs_pos_eq by lra.
  - destruct (Rlt_dec x 0) as [Hx' | Hx'].
    + destruct (Rle_dec 0 y) as [_ | ?]; [| contradiction].
      rewrite neg_cos, (cos_atan_ratio x y r) by (try assumption; lra).
      rewrite Rabs_left by assumption. field. lra.
    + assert (x = 0) by lra. subst x.
      destruct (Rlt_dec 0 y) as [_ | Hy'].
      * rewrite cos_PI2. unfold Rdiv. ring.
      * assert (y = 0) by lra. subst y. nra.
Qed.

(** X29. Where the Sun rises and sets ([|tan l * tan d| <= 1], latitude and
    declination strictly inside a right angle), the computed azimuth is the
    textbook one: its cosine is [sin d / cos l], so it is
    [acos (sin d / cos l)]. *)
Theorem sunrise_azimuth_closed_form (l d : R) :
  - (PI / 2) < l < PI / 2 -> - (PI / 2) < d < PI / 2 ->
  -1 <= tan l * tan d <= 1 ->
  cos (sunrise_azimuth l d) = sin d / cos l /\
  sunrise_azimuth l d = acos (sin d / cos l).
Proof.
  intros Hl Hd Hp.
  assert (Hcl : 0 < cos l) by (apply cos_gt_0; lra).
  assert (Hcd : 0 < cos d) by (apply cos_gt_0; lra).
  pose proof (sin2_cos2' l) as El. pose proof (sin2_cos2' d) as Ed.
  assert (Hcos : cos (sunrise_azimuth l d) = sin d / cos l).
  { unfold sunrise_azimuth. rewrite clip_inside by assumption.
    assert (Hf : 0 <= 1 - (tan l * tan d) ^ 2) by nra.
    set (sl := sin l) in *. set (cl := cos l) in *.
    set (sd := sin d) in *. set (cd := cos d) in *.
    assert (Hx : sl * (tan l * tan d) + cl * tan d = sd / (cl * cd)).
    { unfold tan. fold sl cl sd cd.
      transitivity (sd * (sl * sl + cl * cl) / (cl * cd));
        [field; split; lra |].
      rewrite El. field; split; lra. }
    assert (Hr : 0 < / cd) by now apply Rinv_0_lt_compat.
    assert (HB : (sl * (tan l * tan d) + cl * tan d)
                 * (sl * (tan l * tan d) + cl * tan d)
                 + sqrt (1 - (tan l * tan d) ^ 2)
                   * sqrt (1 - (tan l * tan d) ^ 2)
                 = / cd * / cd).
    { rewrite sqrt_sqrt by assumption. rewrite Hx.
      unfold tan. fold sl cl sd cd.
      transitivity ((sd * sd * (1 - sl * sl) + cl * cl * (cd * cd))
                    / (cl * cl * (cd * cd)));
        [field; split; lra |].
      replace (1 - sl * sl) with (cl * cl) by lra.
      transitivity (cl * cl * (sd * sd + cd * cd) / (cl * cl * (cd * cd)));
        [field; split; lra |].
      rewrite Ed. field; split; lra. }
    rewrite (cos_arctan2 _ _ (/ cd) (sqrt_pos _) Hr HB).
    rewrite Hx. field; split; lra. }
  split; [exact Hcos |].
  rewrite <- Hcos. symmetry. apply acos_cos.
  unfold sunrise_azimuth. apply arctan2_upper_half, sqrt_pos.
Qed.

Lemma sunrise_azimuth_closed_form_witness :
  cos (sunrise_azimuth 0 0) = sin 0 / cos 0.
Proof.
  apply (sunrise_azimuth_closed_form 0 0
           zero_inside_right_angle zero_inside_right_angle).
  rewrite tan_0. lra.
Defined.

Lemma arctan2_flip (x y : R) :
  0 <= y -> x <> 0 \/ 0 < y ->
  np.arctan2 y (- x) = PI - np.arctan2 y x.
Proof.
  intros Hy Hnz. unfold np.arctan2.
  rewrite Rdiv_opp_r, atan_opp.
  destruct (Rlt_dec 0 x) as [Hx | Hx].
  - destruct (Rlt_dec 0 (- x)) as [? | _]; [lra |].
    destruct (Rlt_dec (- x) 0) as [_ | ?]; [| lra].
    destruct (Rle_dec 0 y) as [_ | ?]; [lra | contradiction].
  - destruct (Rlt_dec x 0) as [Hx' | Hx'].
    + destruct (Rlt_dec 0 (- x)) as [_ | ?]; [| lra].
      destruct (Rle_dec 0 y) as [_ | ?]; [lra | contradiction].
    + destruct (Rlt_dec 0 (- x)) as [? | _]; [lra |].
      destruct (Rlt_dec (- x) 0) as [? | _]; [lra |].
      destruct Hnz as [? | Hpos]; [lra |].
      destruct (Rlt_dec 0 y) as [_ | ?]; [lra | contradiction].
Qed.

Lemma clip_cases (p : R) :
  (p <= -1 /\ np.clip p (-1) 1 = -1) \/
  (-1 < p < 1 /\ np.clip p (-1) 1 = p) \/
  (1 <= p /\ np.clip p (-1) 1 = 1).
Proof.
  destruct (Rle_lt_dec p (-1)) as [Hlo | Hlo];
    [left; split; [assumption | now apply clip_below] |].
  destruct (Rle_lt_dec 1 p) as [Hhi | Hhi];
    [right; right; split; [assumption | now apply clip_above] |].
  right; left. split; [lra | apply clip_inside; lra].
Qed.

(** X30. The sunrise azimuth is the same at the latitudes [l] and [- l]; at
    a latitude strictly inside a right angle, changing the sign of the
    declination mirrors it about due east: the azimuth at [- d] is [pi]
    minus the azimuth at [d]. *)
Theorem sunrise_azimuth_mirror (l d : R) :
  - (PI / 2) < l < PI / 2 ->
  sunrise_azimuth (- l) d = sunrise_azimuth l d /\
  sunrise_azimuth l (- d) = PI - sunrise_azimuth l d.
Proof.
  intros Hl. unfold sunrise_azimuth.
  rewrite !tan_neg, sin_neg, cos_neg.
  replace (- tan l * tan d) with (- (tan l * tan d)) by ring.
  replace (tan l * - tan d) with (- (tan l * tan d)) by ring.
  rewrite clip_opp.
  set (p := tan l * tan d). set (f := np.clip p (-1) 1).
  replace (1 - (- f) ^ 2) with (1 - f ^ 2) by ring.
  split; [f_equal; ring |].
  replace (sin l * - f + cos l * - tan d)
    with (- (sin l * f + cos l * tan d)) by ring.
  apply arctan2_flip; [apply sqrt_pos |].
  assert (Hcl : 0 < cos l) by (apply cos_gt_0; lra).
  assert (Ht : tan l * cos l = sin l) by (unfold tan; field; lra).
  destruct (clip_cases p) as [[Hp E] | [[Hp E] | [Hp E]]]; fold f in E.
  - left. rewrite E. intros Hx.
    assert (Etd : tan d = tan l)
      by (apply Rmult_eq_reg_l with (cos l); lra).
    unfold p in Hp. rewrite Etd in Hp. nra.
  - right. apply sqrt_lt_R0. rewrite E. nra.
  - left. rewrite E. intros Hx.
    assert (Etd : tan d = - tan l)
      by (apply Rmult_eq_reg_l with (cos l); lra).
    unfold p in Hp. rewrite Etd in Hp. nra.
Qed.

Lemma sunrise_azimuth_mirror_witness :
  - (PI / 2) < PI / 4 < PI / 2 /\
  sunrise_azimuth (PI / 4) (- 1) = PI - sunrise_azimuth (PI / 4) 1.
Proof.
  split; [exact quarter_inside_right_angle |].
  exact (proj2 (sunrise_azimuth_mirror (PI / 4) 1
                  quarter_inside_right_angle)).
Defined.
